(** * A shallow embedding of chatbot.py and the properties of its specification

    Python [str] values are sequences of Unicode code points; they are
    modelled as lists of [N].  The single file [mental_health_chat.json], the
    standard output and the requests sent to the completion service form the
    [world] that the program's functions transform. *)

From Stdlib Require Import List NArith Bool Arith Lia String Ascii.
Import ListNotations.
Local Open Scope N_scope.

(** ** Python strings *)

Abbreviation char := N (only parsing).
Abbreviation str := (list N) (only parsing).

(** Decoding of the UTF-8 bytes of a source literal into code points. *)
Fixpoint utf8 (bs : list N) : str :=
  match bs with
  | [] => []
  | b :: r =>
    if b <? 0x80 then b :: utf8 r
    else if b <? 0xE0 then
      match r with
      | b1 :: r1 => ((b - 0xC0) * 64 + (b1 - 0x80)) :: utf8 r1
      | _ => []
      end
    else if b <? 0xF0 then
      match r with
      | b1 :: b2 :: r2 =>
        (((b - 0xE0) * 64 + (b1 - 0x80)) * 64 + (b2 - 0x80)) :: utf8 r2
      | _ => []
      end
    else
      match r with
      | b1 :: b2 :: b3 :: r3 =>
        ((((b - 0xF0) * 64 + (b1 - 0x80)) * 64 + (b2 - 0x80)) * 64
         + (b3 - 0x80)) :: utf8 r3
      | _ => []
      end
  end.

Definition lit (s : string) : str :=
  utf8 (map N_of_ascii (list_ascii_of_string s)).

Definition NL : char := 10.

(** [str.isspace] on one code point: the code points Unicode classifies as
    whitespace, which are the ones [str.strip()] removes. *)
Definition isspace (c : char) : bool :=
  ((0x09 <=? c) && (c <=? 0x0D)) || ((0x1C <=? c) && (c <=? 0x20))
  || (c =? 0x85) || (c =? 0xA0) || (c =? 0x1680)
  || ((0x2000 <=? c) && (c <=? 0x200A))
  || (c =? 0x2028) || (c =? 0x2029) || (c =? 0x202F) || (c =? 0x205F)
  || (c =? 0x3000).

Fixpoint lstrip (s : str) : str :=
  match s with
  | [] => []
  | c :: r => if isspace c then lstrip r else s
  end.

Definition rstrip (s : str) : str := rev (lstrip (rev s)).

(** [s.strip()] *)
Definition strip (s : str) : str := rstrip (lstrip s).

(** [s.split(sep)] for a one-character separator. *)
Fixpoint split (sep : char) (s : str) : list str :=
  match s with
  | [] => [[]]
  | c :: r =>
    if c =? sep then [] :: split sep r
    else match split sep r with
         | l :: ls => (c :: l) :: ls
         | [] => [[c]]
         end
  end.

(** [sep.join(ls)] *)
Fixpoint join (sep : str) (ls : list str) : str :=
  match ls with
  | [] => []
  | l :: ls' =>
    match ls' with
    | [] => l
    | _ :: _ => l ++ sep ++ join sep ls'
    end
  end.

(** [s.startswith(p)] *)
Fixpoint startswith (p s : str) : bool :=
  match p, s with
  | [], _ => true
  | _ :: _, [] => false
  | a :: p', b :: s' => (a =? b) && startswith p' s'
  end.

(** [needle in hay] *)
Fixpoint contains (needle hay : str) : bool :=
  startswith needle hay
  || match hay with
     | [] => false
     | _ :: r => contains needle r
     end.

(** [s.replace(old, new)]: the occurrences of [old] are found from left to
    right and do not overlap; [skip] counts the characters of an occurrence
    that are still to be passed over. *)
Fixpoint replace_from (old new : str) (skip : nat) (s : str) : str :=
  match s with
  | [] => []
  | c :: r =>
    match skip with
    | S k => replace_from old new k r
    | O =>
      if startswith old s
      then new ++ replace_from old new (Nat.pred (List.length old)) r
      else c :: replace_from old new 0 r
    end
  end.

Definition replace (old new s : str) : str :=
  match old with
  | [] => new ++ flat_map (fun c => c :: new) s
  | _ :: _ => replace_from old new 0 s
  end.

(** The truth value of a string: it is not empty. *)
Definition truthy (s : str) : bool :=
  match s with
  | [] => false
  | _ :: _ => true
  end.

Definition str_eqb (a b : str) : bool :=
  if list_eq_dec N.eq_dec a b then true else false.

(** [l[-n:]] for a positive [n]. *)
Definition lastn {A : Type} (n : nat) (l : list A) : list A :=
  skipn (List.length l - n) l.

(** [str.lower] restricted to the ASCII letters; it is the instance of the
    runtime's lowercasing used to run the model on ASCII text. *)
Definition ascii_lower (s : str) : str :=
  map (fun c => if (65 <=? c) && (c <=? 90) then c + 32 else c) s.

(** ** Messages, exceptions and the world *)

(** A message is the dict [{"role": ..., "content": ...}]. *)
Record message := mkMessage { role : str; content : str }.

(** The exceptions that the program can meet; all are of classes derived
    from [Exception].  An interrupt from the keyboard is not one of them: it
    is an [event] of the command-line loop. *)
Inductive exn :=
| FileNotFoundError
| JSONDecodeError
| IndexError
| EOFError
| OSError (detail : str)
| APIError (detail : str).

Inductive result (A : Type) :=
| Ok (a : A)
| Raise (e : exn).
Arguments Ok {A} a.
Arguments Raise {A} e.

(** What the program writes on standard output: a text, or the line printed
    by [print(f"...{e}")], a text followed by the rendering of an exception. *)
Inductive output :=
| Out (s : str)
| OutError (s : str) (e : exn).

(** [file] is the content of mental_health_chat.json ([None]: the file does
    not exist); [requests] records the message lists sent to the completion
    service and [turns] counts the calls of the orchestrator. *)
Record world := mkWorld {
  file : option str;
  stdout : list output;
  requests : list (list message);
  turns : nat
}.

(** Computations that read and change the world and may raise; what was
    changed before an exception stays changed. *)
Definition M (A : Type) := world -> result A * world.

Definition ret {A} (a : A) : M A := fun w => (Ok a, w).

Definition bind {A B} (m : M A) (k : A -> M B) : M B :=
  fun w =>
    match m w with
    | (Ok a, w') => k a w'
    | (Raise e, w') => (Raise e, w')
    end.

Definition raise {A} (e : exn) : M A := fun w => (Raise e, w).

Definition lift {A} (r : result A) : M A := fun w => (r, w).

(** [try: body except <class> as e: handler e]; [caught] tells the exceptions
    of the class. *)
Definition try_except {A} (body : M A) (caught : exn -> bool)
    (handler : exn -> M A) : M A :=
  fun w =>
    match body w with
    | (Ok a, w') => (Ok a, w')
    | (Raise e, w') => if caught e then handler e w' else (Raise e, w')
    end.

Declare Scope monad_scope.
Delimit Scope monad_scope with monad.
Notation "x <- m ;; k" := (bind m (fun x => k))
  (at level 61, m at next level, right associativity) : monad_scope.
Notation "m ;;; k" := (bind m (fun _ => k))
  (at level 61, right associativity) : monad_scope.

(** [open(name, "r").read()] *)
Definition read_file : M str :=
  fun w =>
    match file w with
    | Some text => (Ok text, w)
    | None => (Raise FileNotFoundError, w)
    end.

(** [open(name, "w").write(text)]: the text replaces the content of the file.
    Here the store takes every write; the calls of [open] that raise are
    those of the module [Faulty] below. *)
Definition write_file (text : str) : M unit :=
  fun w => (Ok tt, mkWorld (Some text) (stdout w) (requests w) (turns w)).

Definition emit (o : output) : M unit :=
  fun w => (Ok tt, mkWorld (file w) (stdout w ++ [o]) (requests w) (turns w)).

(** [print(s)] and [print(s, end="")] *)
Definition print (s : str) : M unit := emit (Out (s ++ [NL])).
Definition print_noend (s : str) : M unit := emit (Out s).

Definition is_FileNotFoundError (e : exn) : bool :=
  match e with FileNotFoundError => true | _ => false end.

Definition is_Exception (e : exn) : bool := true.

(** ** The JSON text of a conversation log

    [json.dump(messages, f, indent=4)] and [json.load(f)] on the data of the
    log: a JSON array of objects with the members "role" and "content".
    [dump] escapes everything outside printable ASCII ([ensure_ascii]).
    Texts that [json.load] would decode to other values are outside this
    data model: like the texts that are not JSON, they make the reader
    raise. *)
Module Json.

Definition hex_digit (n : N) : char := if n <? 10 then 48 + n else 87 + n.

Definition u_escape (n : N) : str :=
  [92; 117; hex_digit (n / 4096 mod 16); hex_digit (n / 256 mod 16);
   hex_digit (n / 16 mod 16); hex_digit (n mod 16)].

Definition escape_char (c : char) : str :=
  if c =? 34 then [92; 34]
  else if c =? 92 then [92; 92]
  else if c =? 10 then [92; 110]
  else if c =? 13 then [92; 114]
  else if c =? 9 then [92; 116]
  else if c =? 12 then [92; 102]
  else if c =? 8 then [92; 98]
  else if (32 <=? c) && (c <=? 126) then [c]
  else if c <? 0x10000 then u_escape c
  else u_escape (0xD800 + ((c - 0x10000) / 1024) mod 1024)
       ++ u_escape (0xDC00 + (c - 0x10000) mod 1024).

Definition encode_string (s : str) : str :=
  34 :: flat_map escape_char s ++ [34].

Definition newline_indent (level : nat) : str :=
  NL :: repeat 32 (4 * level).

Definition dump_message (m : message) : str :=
  [123] ++ newline_indent 2
  ++ encode_string [114; 111; 108; 101] ++ [58; 32] ++ encode_string (role m)
  ++ [44] ++ newline_indent 2
  ++ encode_string [99; 111; 110; 116; 101; 110; 116] ++ [58; 32]
  ++ encode_string (content m)
  ++ newline_indent 1 ++ [125].

(** [json.dumps(ms, indent=4)]; without [indent] the empty list gives the
    same text, "[]". *)
Definition dumps (ms : list message) : str :=
  match ms with
  | [] => [91; 93]
  | _ :: _ =>
    [91] ++ newline_indent 1
    ++ join ([44] ++ newline_indent 1) (map dump_message ms)
    ++ newline_indent 0 ++ [93]
  end.

Definition is_ws (c : char) : bool :=
  (c =? 32) || (c =? 9) || (c =? 10) || (c =? 13).

Fixpoint skip_ws (s : str) : str :=
  match s with
  | [] => []
  | c :: r => if is_ws c then skip_ws r else s
  end.

Definition hex_val (c : char) : option N :=
  if (48 <=? c) && (c <=? 57) then Some (c - 48)
  else if (97 <=? c) && (c <=? 102) then Some (c - 87)
  else if (65 <=? c) && (c <=? 70) then Some (c - 55)
  else None.

Definition decode_uXXXX (s : str) : option (N * str) :=
  match s with
  | a :: b :: c :: d :: r =>
    match hex_val a, hex_val b, hex_val c, hex_val d with
    | Some x, Some y, Some z, Some t => Some (((x * 16 + y) * 16 + z) * 16 + t, r)
    | _, _, _, _ => None
    end
  | _ => None
  end.

Definition backslash (esc : char) : option char :=
  if esc =? 34 then Some 34
  else if esc =? 92 then Some 92
  else if esc =? 47 then Some 47
  else if esc =? 98 then Some 8
  else if esc =? 102 then Some 12
  else if esc =? 110 then Some 10
  else if esc =? 114 then Some 13
  else if esc =? 116 then Some 9
  else None.

(** The escape after a backslash-u: one code unit, or a surrogate pair. *)
Definition scan_unicode (s : str) : option (char * str) :=
  match decode_uXXXX s with
  | None => None
  | Some (uni, r) =>
    if (0xD800 <=? uni) && (uni <=? 0xDBFF) && startswith [92; 117] r
    then match decode_uXXXX (skipn 2 r) with
         | None => None
         | Some (uni2, r2) =>
           if (0xDC00 <=? uni2) && (uni2 <=? 0xDFFF)
           then Some (0x10000 + ((uni - 0xD800) * 1024 + (uni2 - 0xDC00)), r2)
           else Some (uni, r)
         end
    else Some (uni, r)
  end.

(** The scanner of a string literal, after its opening quote: the decoded
    string and the text after the closing quote. *)
Fixpoint scanstring (fuel : nat) (s : str) : option (str * str) :=
  match fuel with
  | O => None
  | S fuel' =>
    match s with
    | [] => None
    | c :: r =>
      if c =? 34 then Some ([], r)
      else if c =? 92 then
        match r with
        | [] => None
        | esc :: r1 =>
          if esc =? 117 then
            match scan_unicode r1 with
            | None => None
            | Some (u, r2) =>
              match scanstring fuel' r2 with
              | Some (t, rest) => Some (u :: t, rest)
              | None => None
              end
            end
          else
            match backslash esc with
            | None => None
            | Some u =>
              match scanstring fuel' r1 with
              | Some (t, rest) => Some (u :: t, rest)
              | None => None
              end
            end
        end
      else if c <? 32 then None
      else
        match scanstring fuel' r with
        | Some (t, rest) => Some (c :: t, rest)
        | None => None
        end
    end
  end.

(** One expected character, after optional whitespace. *)
Definition expect (c : char) (s : str) : option str :=
  match skip_ws s with
  | d :: r => if d =? c then Some r else None
  | [] => None
  end.

Definition parse_string (fuel : nat) (s : str) : option (str * str) :=
  match expect 34 s with
  | Some r => scanstring fuel r
  | None => None
  end.

(** The member ["key": "value"]. *)
Definition parse_member (fuel : nat) (key : str) (s : str)
    : option (str * str) :=
  match parse_string fuel s with
  | Some (k, r) =>
    if list_eq_dec N.eq_dec k key
    then match expect 58 r with
         | Some r1 => parse_string fuel r1
         | None => None
         end
    else None
  | None => None
  end.

Definition parse_message (fuel : nat) (s : str) : option (message * str) :=
  match expect 123 s with
  | None => None
  | Some r =>
    match parse_member fuel [114; 111; 108; 101] r with
    | None => None
    | Some (ro, r1) =>
      match expect 44 r1 with
      | None => None
      | Some r2 =>
        match parse_member fuel [99; 111; 110; 116; 101; 110; 116] r2 with
        | None => None
        | Some (co, r3) =>
          match expect 125 r3 with
          | None => None
          | Some r4 => Some (mkMessage ro co, r4)
          end
        end
      end
    end
  end.

(** The elements of an array after its first one, up to the closing
    bracket. *)
Fixpoint parse_more (fuel : nat) (s : str) : option (list message * str) :=
  match fuel with
  | O => None
  | S fuel' =>
    match skip_ws s with
    | [] => None
    | c :: r =>
      if c =? 93 then Some ([], r)
      else if c =? 44 then
        match parse_message fuel r with
        | None => None
        | Some (m, r1) =>
          match parse_more fuel' r1 with
          | Some (ms, rest) => Some (m :: ms, rest)
          | None => None
          end
        end
      else None
    end
  end.

Definition parse_array (fuel : nat) (s : str) : option (list message * str) :=
  match expect 91 s with
  | None => None
  | Some r =>
    match expect 93 r with
    | Some rest => Some ([], rest)
    | None =>
      match parse_message fuel r with
      | None => None
      | Some (m, r1) =>
        match parse_more fuel r1 with
        | Some (ms, rest) => Some (m :: ms, rest)
        | None => None
        end
      end
    end
  end.

(** [json.loads(text)]: the log held by the text; a text that is not the
    JSON of a log raises. *)
Definition loads (text : str) : result (list message) :=
  match parse_array (S (List.length text)) text with
  | Some (ms, rest) =>
    match skip_ws rest with
    | [] => Ok ms
    | _ :: _ => Raise JSONDecodeError
    end
  | None => Raise JSONDecodeError
  end.

(** The continuation of the scanner after one decoded character. *)
Definition scanned (c : char) (next : option (str * str)) : option (str * str) :=
  match next with
  | Some (t, rest) => Some (c :: t, rest)
  | None => None
  end.

(** Texts made of JSON whitespace. *)
Definition all_ws (l : str) : Prop := forallb is_ws l = true.

(** The text of an array after its first message, followed by [rest]. *)
Definition more_text (ms : list message) (rest : str) : str :=
  flat_map (fun m => [44] ++ newline_indent 1 ++ dump_message m) ms
  ++ newline_indent 0 ++ [93] ++ rest.

End Json.

(** ** The completion service *)

(** [chunk.choices[0].delta.content] is [None] or a text. *)
Record choice := mkChoice { delta_content : option str }.
Record chunk := mkChunk { choices : list choice }.

(** The streamed completion: a finite sequence of chunks that ends normally
    or with an exception raised by the iterator. *)
Inductive stream :=
| SEnd
| SChunk (c : chunk) (rest : stream)
| SFail (e : exn).

(** What the surroundings do during one turn: [strftime fmt] is
    [datetime.datetime.now().strftime(fmt)] and [create request] is
    [client.chat.completions.create(messages=request, ...)]. *)
Record env := mkEnv {
  strftime : str -> str;
  create : list message -> result stream
}.

(** ** chatbot.py *)

Definition CRISIS_KEYWORDS : list str := Eval vm_compute in
  map lit
    ["suicide"; "kill myself"; "end my life"; "want to die"; "suicidal";
     "harm myself"; "self harm"; "cut myself"; "overdose"; "not worth living";
     "better off dead"; "ending it all"; "can't go on"; "hopeless"]%string.

Definition get_crisis_resources : str := Eval vm_compute in lit "
🆘 IMMEDIATE CRISIS RESOURCES:

🇺🇸 United States:
• National Suicide Prevention Lifeline: 988
• Crisis Text Line: Text HOME to 741741
• Emergency: 911

🇬🇧 United Kingdom:
• Samaritans: 116 123
• Emergency: 999

🇨🇦 Canada:
• Talk Suicide Canada: 1-833-456-4566
• Emergency: 911

🌍 International:
• International Association for Suicide Prevention: https://www.iasp.info/resources/Crisis_Centres/

Remember: You matter, your life has value, and help is available. Please reach out to these resources or go to your nearest emergency room if you're in immediate danger.
".

Definition crisis_instruction_text : str := Eval vm_compute in lit
  "ALERT: User may be in crisis. Respond with immediate empathy, validation, and provide crisis resources. Encourage immediate professional help.".

Definition fallback_apology : str := Eval vm_compute in lit
  "I apologize, but I encountered a technical issue. Let's start fresh. How are you feeling right now, and how can I support you today?".

Definition end_of_text : str := Eval vm_compute in lit "</s>".

Definition exit_words : list str := Eval vm_compute in
  map lit ["quit"; "exit"; "goodbye"; "bye"]%string.

Definition system_role : str := Eval vm_compute in lit "system".
Definition user_role : str := Eval vm_compute in lit "user".
Definition assistant_role : str := Eval vm_compute in lit "assistant".

Record datetime_info := mkDatetimeInfo {
  day : str; date : str; month : str; year : str; time : str;
  formatted : str
}.

Definition get_current_datetime_info (e : env) : datetime_info :=
  {| day := strftime e (lit "%A");
     date := strftime e (lit "%d");
     month := strftime e (lit "%B");
     year := strftime e (lit "%Y");
     time := strftime e (lit "%I:%M %p");
     formatted := strftime e (lit "%A, %B %d, %Y at %I:%M %p") |}.

Definition load_conversation_history : M (list message) :=
  (try_except
     (text <- read_file ;; lift (Json.loads text))
     is_FileNotFoundError
     (fun _ => write_file (Json.dumps []) ;;; ret []))%monad.

Definition save_conversation_history (messages : list message) : M unit :=
  write_file (Json.dumps messages).

Definition clean_response (response : str) : str :=
  let lines := split NL response in
  let non_empty_lines :=
    map strip (filter (fun line => truthy (strip line)) lines) in
  join [NL] non_empty_lines.

(** The loop [for chunk in completion: if ...content: response += ...content]. *)
Fixpoint collect (completion : stream) (response : str) : result str :=
  match completion with
  | SEnd => Ok response
  | SFail e => Raise e
  | SChunk chunk rest =>
    match choices chunk with
    | [] => Raise IndexError
    | c0 :: _ =>
      match delta_content c0 with
      | Some text =>
        if truthy text then collect rest (response ++ text)
        else collect rest response
      | None => collect rest response
      end
    end
  end.

(** The call of the completion service, recorded in [requests]. *)
Definition completions_create (e : env) (request : list message) : M stream :=
  fun w =>
    (create e request,
     mkWorld (file w) (stdout w) (requests w ++ [request]) (turns w)).

Definition count_turn : M unit :=
  fun w => (Ok tt, mkWorld (file w) (stdout w) (requests w) (S (turns w))).

Section Chatbot.

(** The module's globals: the names read from the .env file, and the
    runtime's [str.lower]. *)
Variable username : str.
Variable assistant_name : str.
Variable lower : str -> str.

Definition MENTAL_HEALTH_SYSTEM : str :=
  lit "You are " ++ assistant_name
  ++ lit ", a compassionate and professionally-trained mental health support chatbot created to help "
  ++ username ++ lit ".

CORE PRINCIPLES:
- Be empathetic, non-judgmental, and supportive
- Use active listening techniques and validate emotions
- Provide evidence-based coping strategies and resources
- Maintain appropriate boundaries - you are supportive but not a replacement for professional therapy
- Always prioritize user safety

COMMUNICATION STYLE:
- Use warm, understanding language
- Ask open-ended questions to encourage reflection
- Reflect back what you hear to show understanding
- Normalize mental health struggles
- Be present-focused and solution-oriented when appropriate

SAFETY PROTOCOLS:
- If user expresses suicidal thoughts or self-harm, immediately provide crisis resources
- Encourage professional help for serious mental health concerns
- Never diagnose or provide medical advice
- Recognize when situations exceed your scope

THERAPEUTIC TECHNIQUES TO USE:
- Cognitive Behavioral Therapy (CBT) principles
- Mindfulness and grounding techniques
- Emotional validation and normalization
- Stress management strategies
- Goal-setting and problem-solving support

LIMITATIONS TO REMEMBER:
- You are not a licensed therapist or medical professional
- Always recommend professional help for persistent or severe symptoms
- Cannot prescribe medications or provide medical diagnoses
- Available 24/7 for support but encourage building real-world support networks

Respond with empathy, practical support, and appropriate resources while maintaining professional boundaries.".

Definition check_crisis_keywords (text : str) : bool :=
  let text_lower := lower text in
  existsb (fun keyword => contains keyword text_lower) CRISIS_KEYWORDS.

Definition system_messages (e : env) (is_crisis : bool) : list message :=
  let datetime_info := get_current_datetime_info e in
  [ mkMessage system_role MENTAL_HEALTH_SYSTEM;
    mkMessage system_role
      (lit "Current date and time: " ++ formatted datetime_info) ]
  ++ (if is_crisis then [mkMessage system_role crisis_instruction_text]
      else []).

(** The body of the [try] statement of [mental_health_chatbot]. *)
Definition turn_body (e : env) (is_crisis : bool) (user_input : str) : M str :=
  (messages <- load_conversation_history ;;
   let messages := messages ++ [mkMessage user_role user_input] in
   completion <-
     completions_create e (system_messages e is_crisis ++ lastn 10 messages) ;;
   response <- lift (collect completion []) ;;
   let response := strip (replace end_of_text [] response) in
   let response :=
     if is_crisis then response ++ [NL; NL] ++ get_crisis_resources
     else response in
   let messages := messages ++ [mkMessage assistant_role response] in
   let messages :=
     if (20 <? List.length messages)%nat then lastn 20 messages
     else messages in
   save_conversation_history messages ;;;
   ret (clean_response response))%monad.

(** The [except Exception as e] handler. *)
Definition turn_handler (e : exn) : M str :=
  (emit (OutError (lit "Error occurred: ") e) ;;;
   write_file (Json.dumps []) ;;;
   ret fallback_apology)%monad.

Definition mental_health_chatbot (e : env) (user_input : str) : M str :=
  (count_turn ;;;
   let is_crisis := check_crisis_keywords user_input in
   try_except (turn_body e is_crisis user_input) is_Exception turn_handler)%monad.

Definition show_welcome_message : M unit :=
  print (lit "
🌟 Welcome to " ++ assistant_name ++ lit " - Your Mental Health Support Companion 🌟

I'm here to provide emotional support, coping strategies, and a safe space to talk about your mental health. 

💙 What I can help with:
• Active listening and emotional validation
• Stress and anxiety management techniques
• Mindfulness and grounding exercises
• Goal-setting and problem-solving support
• General mental health information and resources

⚠️  Important reminders:
• I'm not a replacement for professional therapy or medical care
• For serious mental health concerns, please consult a licensed professional
• In crisis situations, contact emergency services or crisis hotlines immediately

How are you feeling today? What would you like to talk about?
").

Definition farewell : str :=
  [NL] ++ assistant_name ++ lit ": Take care of yourself, " ++ username
  ++ lit ". Remember, support is always available when you need it. 💙".

Definition interrupt_farewell : str :=
  [NL; NL] ++ assistant_name ++ lit ": Take care, " ++ username
  ++ lit ". Remember to be kind to yourself. 💙".

(** [input(prompt)] writes the prompt and then returns the line typed, or is
    interrupted, or finds the input closed. *)
Inductive event :=
| Line (s : str)
| Interrupt
| EndOfInput.

Inductive status := Running | Terminated.

Definition prompt : str := [NL] ++ username ++ lit ": ".

(** One iteration of the [while True] loop of [main]. *)
Definition main_iteration (e : env) (ev : event) : M status :=
  (match ev with
   | Interrupt =>
     print_noend prompt ;;; print interrupt_farewell ;;; ret Terminated
   | _ =>
     try_except
       (print_noend prompt ;;;
        line <- match ev with
                | Line s => ret s
                | _ => raise EOFError
                end ;;
        let user_input := strip line in
        if existsb (str_eqb (lower user_input)) exit_words
        then print farewell ;;; ret Terminated
        else if negb (truthy user_input) then ret Running
        else
          print_noend ([NL] ++ assistant_name ++ lit ": ") ;;;
          response <- mental_health_chatbot e user_input ;;
          print response ;;;
          ret Running)
       is_Exception
       (fun err =>
          emit (OutError (lit "
Sorry, I encountered an error: ") err) ;;;
          print (lit "Let's try again...") ;;;
          ret Running)
   end)%monad.

(** The loop, over the successive inputs and their surroundings. *)
Fixpoint main_loop (inputs : list (env * event)) : M status :=
  match inputs with
  | [] => ret Running
  | (e, ev) :: rest =>
    (st <- main_iteration e ev ;;
     match st with
     | Terminated => ret Terminated
     | Running => main_loop rest
     end)%monad
  end.

Definition main (inputs : list (env * event)) : M status :=
  (show_welcome_message ;;;
   print ([NL] ++ repeat 61 60) ;;;
   print (lit "Type 'quit', 'exit', or 'goodbye' to end the conversation") ;;;
   print (repeat 61 60 ++ [NL]) ;;;
   main_loop inputs)%monad.

End Chatbot.

(** ** The store with faults

    [open] can raise: the file cannot be read or written (permissions, a
    missing directory, a full disk).  [faults] tells, for each call of
    [open] met during a turn, the exception it raises, if any; a call that
    raises leaves the file as it is.  With [no_faults] the functions of
    this module are the ones above. *)
Module Faulty.

Record faults := mkFaults {
  read_fault : option exn;
  create_fault : option exn;
  save_fault : option exn;
  reset_fault : option exn
}.

Definition no_faults : faults := mkFaults None None None None.

(** [m], unless the call of [open] raises. *)
Definition opening {A} (fault : option exn) (m : M A) : M A :=
  fun w =>
    match fault with
    | Some err => (Raise err, w)
    | None => m w
    end.

Definition load_conversation_history (f : faults) : M (list message) :=
  (try_except
     (text <- opening (read_fault f) read_file ;; lift (Json.loads text))
     is_FileNotFoundError
     (fun _ =>
        opening (create_fault f) (write_file (Json.dumps [])) ;;; ret []))%monad.

Definition save_conversation_history (f : faults) (messages : list message)
    : M unit :=
  opening (save_fault f) (write_file (Json.dumps messages)).

Section WithGlobals.

Variable username : str.
Variable assistant_name : str.
Variable lower : str -> str.

Definition turn_body (f : faults) (e : env) (is_crisis : bool)
    (user_input : str) : M str :=
  (messages <- load_conversation_history f ;;
   let messages := messages ++ [mkMessage user_role user_input] in
   completion <-
     completions_create e
       (system_messages username assistant_name e is_crisis
        ++ lastn 10 messages) ;;
   response <- lift (collect completion []) ;;
   let response := strip (replace end_of_text [] response) in
   let response :=
     if is_crisis then response ++ [NL; NL] ++ get_crisis_resources
     else response in
   let messages := messages ++ [mkMessage assistant_role response] in
   let messages :=
     if (20 <? List.length messages)%nat then lastn 20 messages
     else messages in
   save_conversation_history f messages ;;;
   ret (clean_response response))%monad.

Definition turn_handler (f : faults) (e : exn) : M str :=
  (emit (OutError (lit "Error occurred: ") e) ;;;
   opening (reset_fault f) (write_file (Json.dumps [])) ;;;
   ret fallback_apology)%monad.

Definition mental_health_chatbot (f : faults) (e : env) (user_input : str)
    : M str :=
  (count_turn ;;;
   let is_crisis := check_crisis_keywords lower user_input in
   try_except (turn_body f e is_crisis user_input) is_Exception
     (turn_handler f))%monad.

End WithGlobals.

End Faulty.

(** ** Notions used to state the properties *)

(** [k] occurs in [t]. *)
Definition substring (k t : str) : Prop :=
  exists pre post, t = pre ++ k ++ post.

(** The log that the file holds: what [load_conversation_history] returns. *)
Definition history_of (w : world) : result (list message) :=
  match file w with
  | None => Ok []
  | Some text => Json.loads text
  end.

(** The stream that delivers the chunks [cs] and ends normally. *)
Definition stream_of (cs : list chunk) : stream := fold_right SChunk SEnd cs.

(** The text fragment carried by a chunk. *)
Definition chunk_text (c : chunk) : str :=
  match choices c with
  | [] => []
  | c0 :: _ =>
    match delta_content c0 with
    | Some text => text
    | None => []
    end
  end.

(** The response as stored: the collected text without the end-of-text marker
    and surrounding whitespace, followed on a crisis turn by the resources. *)
Definition stored_response (is_crisis : bool) (raw : str) : str :=
  let reply := strip (replace end_of_text [] raw) in
  if is_crisis then reply ++ [NL; NL] ++ get_crisis_resources else reply.

(** The lines that [clean_response] keeps. *)
Definition kept_lines (s : str) : list str :=
  map strip (filter (fun line => truthy (strip line)) (split NL s)).

(** Unicode scalar values: code points that are not surrogates. *)
Definition scalar (c : char) : bool :=
  ((c <? 0xD800) || (0xDFFF <? c)) && (c <=? 0x10FFFF).

Definition wf_str (s : str) : Prop := forallb scalar s = true.

Definition wf_message (m : message) : Prop :=
  wf_str (role m) /\ wf_str (content m).

Definition wf_log (ms : list message) : Prop := Forall wf_message ms.

(** The world after a load: a missing file has been created empty. *)
Definition created (w : world) : world :=
  match file w with
  | None => mkWorld (Some (Json.dumps [])) (stdout w) (requests w) (turns w)
  | Some _ => w
  end.

(** The world in which the body of the turn starts. *)
Definition started (w : world) : world :=
  mkWorld (file w) (stdout w) (requests w) (S (turns w)).

(** The world left by the [except] handler. *)
Definition reset_after (err : exn) (w : world) : world :=
  mkWorld (Some (Json.dumps []))
    (stdout w ++ [OutError (lit "Error occurred: ") err])
    (requests w) (turns w).

(** The world after more output. *)
Definition add_output (w : world) (outs : list output) : world :=
  mkWorld (file w) (stdout w ++ outs) (requests w) (turns w).

(** A text without blank lines: it is empty, or none of its lines is empty or
    made of whitespace only. *)
Definition no_blank_line (s : str) : Prop :=
  s = [] \/ Forall (fun line => truthy (strip line) = true) (split NL s).

(** The request of a turn, when the log loaded is [old]. *)
Definition request_for (username assistant_name : str) (lower : str -> str)
    (e : env) (user_input : str) (old : list message) : list message :=
  system_messages username assistant_name e
    (check_crisis_keywords lower user_input)
  ++ lastn 10 (old ++ [mkMessage user_role user_input]).

(** The log saved by a turn, when the log loaded is [old] and the text
    collected from the stream is [raw]. *)
Definition saved_log (lower : str -> str) (user_input : str)
    (old : list message) (raw : str) : list message :=
  lastn 20
    (old ++ [mkMessage user_role user_input;
             mkMessage assistant_role
               (stored_response (check_crisis_keywords lower user_input) raw)]).

(** ** Concrete runs *)

Definition sample_username : str := Eval vm_compute in lit "User".
Definition sample_assistant : str := Eval vm_compute in lit "MindfulBot".

Definition sample_chunks : list chunk :=
  [ mkChunk [mkChoice (Some (lit "I hear "))];
    mkChunk [mkChoice None];
    mkChunk [mkChoice (Some [])];
    mkChunk [mkChoice (Some (lit "you.

Tell me more.</s>   ")); mkChoice (Some (lit "unused"))] ].

Definition sample_clock (fmt : str) : str :=
  lit "Monday, January 01, 2024 at 09:00 AM".

(** The service answers every request with the sample chunks. *)
Definition sample_env : env :=
  mkEnv sample_clock (fun _ => Ok (stream_of sample_chunks)).

(** The service raises on every request. *)
Definition failing_env : env :=
  mkEnv sample_clock (fun _ => Raise (APIError (lit "rate limit"))).

Definition empty_world : world := mkWorld None [] [] 0.

Definition sample_log : list message :=
  [ mkMessage user_role
      (lit "hello " ++ [34] ++ lit "there" ++ [34; 32; 92] ++ lit " é 🆘"
       ++ [NL] ++ lit "bye");
    mkMessage assistant_role (lit "hi") ].

(** A world whose file holds 20 messages. *)
Definition long_world : world :=
  mkWorld
    (Some (Json.dumps
             (flat_map (fun _ => sample_log) (seq 0 10))))
    [] [] 0.

Definition crisis_input : str := Eval vm_compute in lit "I feel HOPELESS".
Definition calm_input : str := Eval vm_compute in lit "I had a great day".

(** The text returned by a run. *)
Definition reply_text (run : result str * world) : str :=
  match fst run with
  | Ok r => r
  | Raise _ => []
  end.

Definition crisis_run : result str * world :=
  mental_health_chatbot sample_username sample_assistant ascii_lower
    sample_env crisis_input long_world.

Definition failing_run : result str * world :=
  mental_health_chatbot sample_username sample_assistant ascii_lower
    failing_env calm_input long_world.

(** ** Notions for the further properties *)

(** The stream that delivers the chunks [cs] and then goes on as [rest]. *)
Definition stream_then (cs : list chunk) (rest : stream) : stream :=
  fold_right SChunk rest cs.

(** The events that end the loop: an exit word, or an interrupt. *)
Definition terminates (lower : str -> str) (ev : event) : bool :=
  match ev with
  | Line s => existsb (str_eqb (lower (strip s))) exit_words
  | Interrupt => true
  | EndOfInput => false
  end.

(** The events on which the orchestrator is called: a line that is neither
    an exit word nor empty, once stripped. *)
Definition runs_turn (lower : str -> str) (ev : event) : bool :=
  match ev with
  | Line s =>
    negb (existsb (str_eqb (lower (strip s))) exit_words) && truthy (strip s)
  | _ => false
  end.

(** The inputs up to the first event that ends the loop, included. *)
Fixpoint until_exit (lower : str -> str) (inputs : list (env * event))
    : list (env * event) :=
  match inputs with
  | [] => []
  | (e, ev) :: rest =>
    if terminates lower ev then [(e, ev)]
    else (e, ev) :: until_exit lower rest
  end.

(** A world whose file holds a text that is not JSON. *)
Definition garbled_world : world :=
  mkWorld (Some (lit "  <html>")) [] [] 0.

(** A text in which no JSON value starts: it is blank, or its first
    character after the whitespace begins neither a string, an object, an
    array, a number nor one of the literals that [json.load] reads. *)
Definition starts_no_value (text : str) : bool :=
  match Json.skip_ws text with
  | [] => true
  | c :: _ =>
    negb (existsb (N.eqb c)
            [34; 123; 91; 45; 110; 116; 102; 78; 73]
          || ((48 <=? c) && (c <=? 57)))
  end.


(** The save step fails, the other writes go through. *)
Definition save_fails : Faulty.faults :=
  Faulty.mkFaults None None (Some (OSError (lit "No space left on device")))
    None.

(** A session without a turn: a blank line, a closed input, an exit word and
    a line that is not read. *)
Definition idle_session : list (env * event) :=
  [ (sample_env, Line (lit "   "));
    (sample_env, EndOfInput);
    (sample_env, Line (lit " QUIT "));
    (sample_env, Line crisis_input) ].

Definition long_log : list message := flat_map (fun _ => sample_log) (seq 0 10).

(** ** Strings *)

Lemma startswith_spec (p s : str) :
  startswith p s = true <-> exists post, s = p ++ post.
Proof.
  revert s. induction p as [|a p IH]; intros s; simpl.
  - split; [intros _; now exists s | reflexivity].
  - destruct s as [|b s].
    + split; [discriminate | intros [post H]; discriminate].
    + rewrite andb_true_iff, N.eqb_eq, IH. split.
      * intros [-> [post ->]]. now exists post.
      * intros [post H]. injection H as -> ->. split; [reflexivity | now exists post].
Qed.

Lemma contains_spec (k t : str) : contains k t = true <-> substring k t.
Proof.
  unfold substring. induction t as [|c t IH].
  - simpl. rewrite orb_false_r, startswith_spec. split.
    + intros [post H]. now exists [], post.
    + intros [pre [post H]]. destruct pre; [now exists post | discriminate].
  - cbn [contains]. rewrite orb_true_iff, startswith_spec, IH. split.
    + intros [[post H] | [pre [post H]]].
      * now exists [], post.
      * exists (c :: pre), post. simpl. now rewrite H.
    + intros [[|d pre] [post H]].
      * left. now exists post.
      * right. injection H as _ H. now exists pre, post.
Qed.

Lemma contains_false (k t : str) : contains k t = false <-> ~ substring k t.
Proof.
  rewrite <- contains_spec. destruct (contains k t); split; intros H.
  - discriminate.
  - now destruct H.
  - discriminate.
  - reflexivity.
Qed.

Lemma crisis_detected (lower : str -> str) (text : str) :
  check_crisis_keywords lower text = true
  <-> exists keyword, In keyword CRISIS_KEYWORDS
                      /\ substring keyword (lower text).
Proof.
  unfold check_crisis_keywords. cbv zeta. rewrite existsb_exists.
  split; intros [k [Hin Hk]]; exists k; split; try assumption;
    now apply contains_spec.
Qed.

(** C1. The crisis detector returns true exactly when some keyword of
    CRISIS_KEYWORDS occurs as a substring of the lowercased input, whatever
    surrounds the occurrence, and false exactly when none does; the answer
    is a function of the text alone. *)
Theorem check_crisis_keywords_iff (lower : str -> str) (text : str) :
  (check_crisis_keywords lower text = true
   <-> exists keyword, In keyword CRISIS_KEYWORDS
                       /\ substring keyword (lower text))
  /\ (check_crisis_keywords lower text = false
      <-> forall keyword, In keyword CRISIS_KEYWORDS
                          -> ~ substring keyword (lower text)).
Proof.
  split; [apply crisis_detected|]. split.
  - intros H k Hin Hk.
    assert (check_crisis_keywords lower text = true) as E
      by (apply crisis_detected; now exists k).
    rewrite E in H. discriminate.
  - intros H. destruct (check_crisis_keywords lower text) eqn:E; [|reflexivity].
    apply crisis_detected in E. destruct E as [k [Hin Hk]].
    now destruct (H k Hin).
Qed.

(** With ASCII lowercasing, an occurrence in the lowercased text is an
    occurrence in the text up to the case of its letters. *)
Lemma ascii_lower_substring (k t : str) :
  substring k (ascii_lower t)
  <-> exists pre mid post, t = pre ++ mid ++ post /\ ascii_lower mid = k.
Proof.
  unfold substring, ascii_lower. split.
  - intros [pre [post H]].
    apply map_eq_app in H. destruct H as [a [b [-> [Ha Hb]]]].
    apply map_eq_app in Hb. destruct Hb as [m [c [-> [Hm Hc]]]].
    now exists a, m, c.
  - intros [pre [mid [post [-> H]]]]. subst k.
    exists (ascii_lower pre), (ascii_lower post).
    unfold ascii_lower. now rewrite !map_app.
Qed.

Example hopeless_today :
  check_crisis_keywords ascii_lower (lit "I feel HOPELESS today") = true.
Proof. reflexivity. Qed.

Example great_day :
  check_crisis_keywords ascii_lower (lit "I had a great day") = false.
Proof. reflexivity. Qed.

(** ** Streaming *)

Lemma collect_stream_of (cs : list chunk) (acc : str) :
  Forall (fun c => choices c <> []) cs ->
  collect (stream_of cs) acc = Ok (acc ++ List.concat (map chunk_text cs)).
Proof.
  intros H. revert acc. induction H as [|c cs Hc _ IH]; intros acc; simpl.
  - now rewrite app_nil_r.
  - unfold chunk_text at 1. destruct (choices c) as [|c0 rest]; [now destruct Hc|].
    destruct (delta_content c0) as [[|x text]|]; simpl; rewrite IH.
    + reflexivity.
    + now rewrite <- app_assoc.
    + reflexivity.
Qed.

Lemma concat_filter_truthy (ls : list str) :
  List.concat (filter truthy ls) = List.concat ls.
Proof.
  induction ls as [|l ls IH]; [reflexivity|].
  destruct l; simpl; now rewrite IH.
Qed.

(** C9. For every finite sequence of chunks that carry a first choice, the
    collecting loop returns the concatenation of their text fragments in the
    order of arrival, which is also the concatenation of the non-empty
    fragments. *)
Theorem collect_concatenates (cs : list chunk) :
  Forall (fun c => choices c <> []) cs ->
  collect (stream_of cs) [] = Ok (List.concat (map chunk_text cs))
  /\ List.concat (map chunk_text cs) = List.concat (filter truthy (map chunk_text cs)).
Proof.
  intros H. split.
  - now rewrite collect_stream_of.
  - now rewrite concat_filter_truthy.
Qed.

(** ** The history store *)

Lemma loads_raises (text : str) (e : exn) :
  Json.loads text = Raise e -> e = JSONDecodeError.
Proof.
  unfold Json.loads.
  destruct (Json.parse_array _ text) as [[ms rest]|]; [|congruence].
  destruct (Json.skip_ws rest); congruence.
Qed.

Lemma load_conversation_history_spec (w : world) :
  load_conversation_history w = (history_of w, created w).
Proof.
  unfold load_conversation_history, try_except, bind, read_file, lift,
    history_of, created, write_file, ret.
  destruct (file w) as [text|]; [|reflexivity].
  destruct (Json.loads text) eqn:E; [reflexivity|].
  now rewrite (loads_raises _ _ E).
Qed.

Lemma loads_empty : Json.loads (Json.dumps []) = Ok [].
Proof. reflexivity. Qed.

(** C7. When the file is absent, loading creates a file that holds the empty
    log and returns the empty sequence, without raising; after a reset, which
    writes the empty sequence, loading returns the empty sequence. *)
Theorem load_absent_and_after_reset (w : world) :
  (file w = None ->
   exists w',
     load_conversation_history w = (Ok [], w')
     /\ file w' = Some (Json.dumps [])
     /\ history_of w' = Ok []
     /\ stdout w' = stdout w)
  /\ fst (load_conversation_history (snd (write_file (Json.dumps []) w)))
     = Ok [].
Proof.
  split.
  - intros H. exists (created w). rewrite load_conversation_history_spec.
    unfold history_of, created. rewrite H. simpl. repeat split.
  - rewrite load_conversation_history_spec. reflexivity.
Qed.

(** ** One turn *)

Lemma lastn_length {A} (n : nat) (l : list A) :
  (List.length (lastn n l) <= n)%nat.
Proof. unfold lastn. rewrite length_skipn. lia. Qed.

Lemma lastn_all {A} (n : nat) (l : list A) :
  (List.length l <= n)%nat -> lastn n l = l.
Proof.
  intros H. unfold lastn. replace (List.length l - n)%nat with 0%nat by lia.
  reflexivity.
Qed.

Lemma lastn_split {A} (n : nat) (l : list A) :
  l = firstn (List.length l - n) l ++ lastn n l.
Proof. unfold lastn. now rewrite firstn_skipn. Qed.

Lemma lastn_last {A} (n : nat) (l : list A) (x d : A) :
  (0 < n)%nat -> last (lastn n (l ++ [x])) d = x.
Proof.
  intros Hn. unfold lastn. rewrite length_app. simpl.
  rewrite skipn_app.
  replace (List.length l + 1 - n - List.length l)%nat with 0%nat by lia.
  simpl. apply last_last.
Qed.

Lemma lastn_last2 {A} (n : nat) (l : list A) (x y d : A) :
  (0 < n)%nat -> last (lastn n (l ++ [x; y])) d = y.
Proof.
  intros Hn. replace (l ++ [x; y]) with ((l ++ [x]) ++ [y])
    by (now rewrite <- app_assoc).
  now apply lastn_last.
Qed.

Lemma truncate_lastn {A} (l : list A) :
  (if (20 <? List.length l)%nat then lastn 20 l else l) = lastn 20 l.
Proof.
  destruct (Nat.ltb_spec 20 (List.length l)); [reflexivity|].
  symmetry. apply lastn_all. lia.
Qed.

Section Turn.

Variables (username assistant_name : str) (lower : str -> str).
Variables (e : env) (user_input : str).

Let is_crisis := check_crisis_keywords lower user_input.
Let request := request_for username assistant_name lower e user_input.
Let saved := saved_log lower user_input.

Lemma saved_log_last (old : list message) (raw : str) (d : message) :
  last (saved_log lower user_input old raw) d
  = mkMessage assistant_role (stored_response is_crisis raw).
Proof. unfold saved_log. apply lastn_last2. lia. Qed.

(** The outcome of the body, from what it loads and receives. *)
Lemma turn_body_run (w : world) :
  turn_body username assistant_name e is_crisis user_input w
  = match history_of w with
    | Raise err => (Raise err, created w)
    | Ok old =>
      let w1 :=
        mkWorld (file (created w)) (stdout w) (requests w ++ [request old])
          (turns w) in
      match create e (request old) with
      | Raise err => (Raise err, w1)
      | Ok completion =>
        match collect completion [] with
        | Raise err => (Raise err, w1)
        | Ok raw =>
          (Ok (clean_response (stored_response is_crisis raw)),
           mkWorld (Some (Json.dumps (saved old raw))) (stdout w)
             (requests w ++ [request old]) (turns w))
        end
      end
    end.
Proof.
  unfold turn_body, bind. rewrite load_conversation_history_spec.
  assert (stdout (created w) = stdout w /\ requests (created w) = requests w
          /\ turns (created w) = turns w) as [Ho [Hq Ht]]
    by (unfold created; destruct (file w); repeat split).
  destruct (history_of w) as [old|err]; [|reflexivity].
  unfold completions_create. rewrite Ho, Hq, Ht. cbv zeta.
  change (system_messages username assistant_name e is_crisis
          ++ lastn 10 (old ++ [mkMessage user_role user_input]))
    with (request old).
  destruct (create e (request old)) as [completion|err]; [|reflexivity].
  unfold lift. destruct (collect completion []) as [raw|err]; [|reflexivity].
  unfold save_conversation_history, write_file, ret.
  rewrite truncate_lastn. cbn [file stdout requests turns].
  unfold saved, saved_log, stored_response. now rewrite <- app_assoc.
Qed.

Lemma turn_body_ok (w w' : world) (r : str) :
  turn_body username assistant_name e is_crisis user_input w = (Ok r, w') ->
  exists old completion raw,
    history_of w = Ok old
    /\ create e (request_for username assistant_name lower e user_input old)
       = Ok completion
    /\ collect completion [] = Ok raw
    /\ r = clean_response (stored_response is_crisis raw)
    /\ w' = mkWorld (Some (Json.dumps (saved_log lower user_input old raw)))
              (stdout w)
              (requests w
               ++ [request_for username assistant_name lower e user_input old])
              (turns w).
Proof.
  rewrite turn_body_run. fold request. fold saved.
  destruct (history_of w) as [old|err]; [|discriminate].
  cbv zeta. destruct (create e (request old)) as [completion|err] eqn:Hc;
    [|discriminate].
  destruct (collect completion []) as [raw|err] eqn:Hraw; [|discriminate].
  intros H. injection H as <- <-. now exists old, completion, raw.
Qed.

(** The requests sent during the body, whatever its outcome. *)
Lemma turn_body_requests (w w' : world) (res : result str) :
  turn_body username assistant_name e is_crisis user_input w = (res, w') ->
  (exists err, history_of w = Raise err /\ requests w' = requests w)
  \/ (exists old,
        history_of w = Ok old
        /\ requests w'
           = requests w
             ++ [request_for username assistant_name lower e user_input old]).
Proof.
  rewrite turn_body_run. fold request.
  destruct (history_of w) as [old|err].
  - intros H. right. exists old. split; [reflexivity|]. cbv zeta in H.
    destruct (create e (request old)) as [completion|];
      [destruct (collect completion []) as [raw|]|];
      injection H as _ <-; reflexivity.
  - intros H. left. exists err. split; [reflexivity|].
    injection H as _ <-. unfold created. destruct (file w); reflexivity.
Qed.

(** The body leaves the count of turns as it is. *)
Lemma turn_body_turns (w w' : world) (res : result str) :
  turn_body username assistant_name e is_crisis user_input w = (res, w') ->
  turns w' = turns w.
Proof.
  rewrite turn_body_run.
  assert (turns (created w) = turns w) as Hcr
    by (unfold created; destruct (file w); reflexivity).
  destruct (history_of w) as [old|err].
  - cbv zeta. destruct (create e (request old)) as [completion|];
      [destruct (collect completion []) as [raw|]|];
      intros H; injection H as _ <-; reflexivity.
  - intros H. injection H as _ <-. exact Hcr.
Qed.

End Turn.

(** ** Lines *)

Lemma isspace_NL : isspace NL = true.
Proof. reflexivity. Qed.

Lemma lstrip_incl (s : str) (x : char) : In x (lstrip s) -> In x s.
Proof.
  induction s as [|c s IH]; simpl; [tauto|].
  destruct (isspace c); simpl; tauto.
Qed.

Lemma strip_incl (s : str) (x : char) : In x (strip s) -> In x s.
Proof.
  unfold strip, rstrip. intros H.
  apply in_rev, lstrip_incl, in_rev in H. now apply lstrip_incl.
Qed.

Lemma lstrip_head (s : str) :
  match lstrip s with
  | [] => True
  | c :: _ => isspace c = false
  end.
Proof.
  induction s as [|c s IH]; simpl; [exact I|].
  destruct (isspace c) eqn:E; [exact IH | exact E].
Qed.

Lemma lstrip_fixed (c : char) (s : str) :
  isspace c = false -> lstrip (c :: s) = c :: s.
Proof. intros H. simpl. now rewrite H. Qed.

Lemma lstrip_idempotent (s : str) : lstrip (lstrip s) = lstrip s.
Proof.
  pose proof (lstrip_head s) as H. destruct (lstrip s) as [|c t]; [reflexivity|].
  now apply lstrip_fixed.
Qed.

Lemma lstrip_snoc (s : str) (c : char) :
  isspace c = false -> lstrip (s ++ [c]) = lstrip s ++ [c].
Proof.
  intros H. induction s as [|d s IH]; simpl.
  - now rewrite H.
  - destruct (isspace d); [exact IH | reflexivity].
Qed.

Lemma rstrip_cons (c : char) (s : str) :
  isspace c = false -> rstrip (c :: s) = c :: rstrip s.
Proof.
  intros H. unfold rstrip. simpl. rewrite lstrip_snoc by assumption.
  now rewrite rev_app_distr.
Qed.

Lemma rstrip_idempotent (s : str) : rstrip (rstrip s) = rstrip s.
Proof. unfold rstrip. now rewrite rev_involutive, lstrip_idempotent. Qed.

Lemma strip_idempotent (s : str) : strip (strip s) = strip s.
Proof.
  unfold strip. pose proof (lstrip_head s) as H.
  destruct (lstrip s) as [|c t]; [reflexivity|].
  rewrite rstrip_cons by assumption. rewrite lstrip_fixed by assumption.
  rewrite rstrip_cons by assumption. now rewrite rstrip_idempotent.
Qed.

Lemma split_nonempty (sep : char) (s : str) : split sep s <> [].
Proof.
  induction s as [|c s IH]; simpl; [discriminate|].
  destruct (c =? sep); [discriminate|].
  destruct (split sep s); discriminate.
Qed.

Lemma split_no_sep (sep : char) (s : str) :
  ~ In sep s -> split sep s = [s].
Proof.
  induction s as [|c s IH]; intros H; simpl; [reflexivity|].
  destruct (N.eqb_spec c sep) as [->|_]; [destruct H; now left|].
  rewrite IH; [reflexivity|]. intros Hin. apply H. now right.
Qed.

Lemma split_app_sep (sep : char) (a b : str) :
  split sep (a ++ sep :: b) = split sep a ++ split sep b.
Proof.
  induction a as [|c a IH]; simpl.
  - now rewrite N.eqb_refl.
  - destruct (c =? sep); [now rewrite IH|].
    rewrite IH. pose proof (split_nonempty sep a) as H.
    destruct (split sep a); [now destruct H | reflexivity].
Qed.

Lemma split_lines_no_sep (sep : char) (s : str) :
  Forall (fun line => ~ In sep line) (split sep s).
Proof.
  induction s as [|c s IH]; simpl.
  - constructor; [tauto | constructor].
  - destruct (N.eqb_spec c sep) as [->|Hne].
    + constructor; [tauto | exact IH].
    + destruct (split sep s) as [|l ls]; [repeat constructor; simpl; intuition|].
      inversion IH as [|? ? Hl Hls]; subst. constructor; [|exact Hls].
      simpl. intros [E | Hin]; [now apply Hne | now apply Hl].
Qed.

Lemma split_join (sep : char) (ls : list str) :
  ls <> [] -> Forall (fun line => ~ In sep line) ls ->
  split sep (join [sep] ls) = ls.
Proof.
  intros Hne H. induction H as [|l ls Hl Hls IH]; [now destruct Hne|].
  destruct ls as [|l' ls'].
  - simpl. now apply split_no_sep.
  - change (join [sep] (l :: l' :: ls')) with (l ++ sep :: join [sep] (l' :: ls')).
    rewrite split_app_sep, IH by discriminate.
    now rewrite split_no_sep.
Qed.

Lemma join_app (sep : str) (a b : list str) :
  a <> [] -> b <> [] -> join sep (a ++ b) = join sep a ++ sep ++ join sep b.
Proof.
  intros Ha Hb. induction a as [|l a IH]; [now destruct Ha|].
  destruct a as [|l' a'].
  - simpl. destruct b; [now destruct Hb | reflexivity].
  - change (join sep ((l :: l' :: a') ++ b))
      with (l ++ sep ++ join sep ((l' :: a') ++ b)).
    rewrite IH by discriminate.
    change (join sep (l :: l' :: a')) with (l ++ sep ++ join sep (l' :: a')).
    now rewrite <- !app_assoc.
Qed.

Lemma clean_response_kept (s : str) :
  clean_response s = join [NL] (kept_lines s).
Proof. reflexivity. Qed.

Lemma kept_lines_app (a b : str) :
  kept_lines (a ++ [NL; NL] ++ b) = kept_lines a ++ kept_lines b.
Proof.
  unfold kept_lines. simpl. rewrite !split_app_sep.
  rewrite !filter_app, !map_app.
  change (split NL []) with [[] : str]. reflexivity.
Qed.

Lemma kept_lines_stripped (s : str) :
  Forall (fun line => truthy line = true /\ strip line = line /\ ~ In NL line)
    (kept_lines s).
Proof.
  unfold kept_lines. pose proof (split_lines_no_sep NL s) as H.
  induction H as [|l ls Hl _ IH]; simpl; [constructor|].
  destruct (truthy (strip l)) eqn:E; [|exact IH].
  simpl. constructor; [|exact IH].
  repeat split; [exact E | apply strip_idempotent |].
  intros Hin. now apply Hl, strip_incl.
Qed.

Lemma clean_response_no_blank_line (s : str) :
  no_blank_line (clean_response s).
Proof.
  rewrite clean_response_kept. pose proof (kept_lines_stripped s) as H.
  destruct (kept_lines s) as [|l ls] eqn:E; [now left|].
  right. rewrite split_join.
  - eapply Forall_impl; [|exact H]. simpl. intros a [Ht [Hs _]]. now rewrite Hs.
  - discriminate.
  - eapply Forall_impl; [|exact H]. simpl. tauto.
Qed.

Lemma no_blank_line_no_double_newline (s : str) :
  no_blank_line s -> ~ substring [NL; NL] s.
Proof.
  intros [-> | H] [pre [post E]].
  - destruct pre; discriminate.
  - subst s. simpl in H. rewrite !split_app_sep in H.
    apply Forall_app in H. destruct H as [_ H].
    change (split NL []) with [[] : str] in H. simpl in H.
    inversion H as [|? ? Hd _]. discriminate.
Qed.

(** ** The orchestrator *)

Section Orchestrator.

Variables (username assistant_name : str) (lower : str -> str).
Variables (e : env) (user_input : str).

Let is_crisis := check_crisis_keywords lower user_input.
Let body := turn_body username assistant_name e is_crisis user_input.
Let chatbot := mental_health_chatbot username assistant_name lower e user_input.
Let user_message := mkMessage user_role user_input.

Lemma chatbot_success (w w' : world) (r : str) :
  body (started w) = (Ok r, w') -> chatbot w = (Ok r, w').
Proof.
  intros H. unfold chatbot, mental_health_chatbot, bind, count_turn, try_except.
  fold is_crisis. fold body. fold (started w). now rewrite H.
Qed.

Lemma chatbot_failure (w w' : world) (err : exn) :
  body (started w) = (Raise err, w') ->
  chatbot w = (Ok fallback_apology, reset_after err w').
Proof.
  intros H. unfold chatbot, mental_health_chatbot, bind, count_turn, try_except.
  fold is_crisis. fold body. fold (started w). now rewrite H.
Qed.

(** The orchestrator always returns a text: it raises nothing. *)
Lemma chatbot_returns (w : world) : exists r w', chatbot w = (Ok r, w').
Proof.
  destruct (body (started w)) as [[r|err] w'] eqn:H.
  - exists r, w'. now apply chatbot_success.
  - exists fallback_apology, (reset_after err w'). now apply chatbot_failure.
Qed.

(** On the store that takes every write: whenever the body of the turn
    raises, whatever the file held before, the orchestrator returns the fixed
    apology instead of raising, and leaves a file that holds the empty log. *)
Lemma exception_resets_log (w w1 : world) (err : exn) :
  body (started w) = (Raise err, w1) ->
  exists w2,
    chatbot w = (Ok fallback_apology, w2)
    /\ file w2 = Some (Json.dumps [])
    /\ history_of w2 = Ok [].
Proof.
  intros H. exists (reset_after err w1).
  split; [now apply chatbot_failure | split; reflexivity].
Qed.

(** A fault of the completion service, at the call or while streaming, makes
    the body raise unless loading has raised before. *)
Lemma completion_fault_resets (w : world) :
  (forall request,
     match create e request with
     | Ok completion => exists err, collect completion [] = Raise err
     | Raise _ => True
     end) ->
  exists w2,
    chatbot w = (Ok fallback_apology, w2)
    /\ file w2 = Some (Json.dumps [])
    /\ history_of w2 = Ok [].
Proof.
  intros Hfault. destruct (body (started w)) as [[r|err] w'] eqn:H.
  - apply turn_body_ok in H. destruct H as [old [completion [raw [_ [Hc [Hr _]]]]]].
    specialize (Hfault (request_for username assistant_name lower e user_input old)).
    rewrite Hc in Hfault. destruct Hfault as [err Herr]. congruence.
  - exists (reset_after err w'). split; [now apply chatbot_failure | split; reflexivity].
Qed.

(** The body completes whenever the file can be loaded and the service
    delivers, to the end, chunks that carry a first choice. *)
Lemma turn_completes (w : world) (old : list message) (cs : list chunk) :
  history_of w = Ok old ->
  create e (request_for username assistant_name lower e user_input old)
  = Ok (stream_of cs) ->
  Forall (fun c => choices c <> []) cs ->
  let raw := List.concat (map chunk_text cs) in
  chatbot w
  = (Ok (clean_response (stored_response is_crisis raw)),
     mkWorld (Some (Json.dumps (saved_log lower user_input old raw)))
       (stdout w)
       (requests w
        ++ [request_for username assistant_name lower e user_input old])
       (S (turns w))).
Proof.
  intros Hold Hc Hcs raw. apply chatbot_success.
  unfold body, is_crisis. rewrite turn_body_run.
  change (history_of (started w)) with (history_of w). rewrite Hold.
  cbv zeta. rewrite Hc, collect_stream_of by exact Hcs. reflexivity.
Qed.

(** After every turn, completed or not, the file holds a log of at most 20
    entries. *)
Lemma turn_leaves_bounded_log (w w' : world) (res : result str) :
  chatbot w = (res, w') ->
  exists saved,
    file w' = Some (Json.dumps saved) /\ (List.length saved <= 20)%nat.
Proof.
  intros H. destruct (body (started w)) as [[r|err] w1] eqn:Hb.
  - rewrite (chatbot_success _ _ _ Hb) in H. injection H as _ <-.
    apply turn_body_ok in Hb.
    destruct Hb as [old [completion [raw [_ [_ [_ [_ ->]]]]]]].
    exists (saved_log lower user_input old raw).
    split; [reflexivity | apply lastn_length].
  - rewrite (chatbot_failure _ _ _ Hb) in H. injection H as _ <-.
    exists []. split; [reflexivity | simpl; lia].
Qed.

(** C4. After a turn whose body completes, whatever log the file held, the
    file holds the last 20 entries, in their order, of that log followed by
    the user message and the assistant message of the turn: at most 20
    entries, the dropped ones being the oldest, the last one being the
    assistant message. *)
Theorem successful_turn_truncates (w w' : world) (r : str) :
  body (started w) = (Ok r, w') ->
  chatbot w = (Ok r, w')
  /\ exists old completion raw,
       let assistant_message :=
         mkMessage assistant_role (stored_response is_crisis raw) in
       let full := old ++ [user_message; assistant_message] in
       let saved := lastn 20 full in
       history_of w = Ok old
       /\ create e (request_for username assistant_name lower e user_input old)
          = Ok completion
       /\ collect completion [] = Ok raw
       /\ file w' = Some (Json.dumps saved)
       /\ (List.length saved <= 20)%nat
       /\ full = firstn (List.length full - 20) full ++ saved
       /\ (forall d, last saved d = assistant_message).
Proof.
  intros H. split; [now apply chatbot_success|].
  apply turn_body_ok in H.
  destruct H as [old [completion [raw [Hold [Hc [Hraw [_ ->]]]]]]].
  exists old, completion, raw. cbv zeta. repeat split.
  - exact Hold.
  - exact Hc.
  - exact Hraw.
  - apply lastn_length.
  - apply lastn_split.
  - intros d. apply saved_log_last.
Qed.



(** C10. After a turn whose body completes, the assistant message at the end
    of the saved log holds the stored response: the stripped text with its
    blank lines and, on a crisis turn, the two newlines and the crisis
    resources; the text returned is [clean_response] of that content and has
    no blank line, so that on a crisis turn the two differ. *)
Theorem returned_text_is_cleaned_stored (w w' : world) (r : str) :
  body (started w) = (Ok r, w') ->
  exists saved stored old completion raw,
    create e (request_for username assistant_name lower e user_input old)
    = Ok completion
    /\ collect completion [] = Ok raw
    /\ file w' = Some (Json.dumps saved)
    /\ (forall d, last saved d = mkMessage assistant_role stored)
    /\ stored = stored_response is_crisis raw
    /\ chatbot w = (Ok (clean_response stored), w')
    /\ r = clean_response stored
    /\ no_blank_line r
    /\ ~ substring [NL; NL] r
    /\ (is_crisis = true ->
        stored = strip (replace end_of_text [] raw)
                 ++ [NL; NL] ++ get_crisis_resources
        /\ r <> stored).
Proof.
  intros H. pose proof H as H'. apply turn_body_ok in H'.
  destruct H' as [old [completion [raw [_ [Hc [Hraw [Hr Hw]]]]]]].
  assert (Hnb : no_blank_line r) by (rewrite Hr; apply clean_response_no_blank_line).
  assert (Hnn : ~ substring [NL; NL] r) by now apply no_blank_line_no_double_newline.
  exists (saved_log lower user_input old raw),
    (stored_response is_crisis raw), old, completion, raw.
  split; [exact Hc|]. split; [exact Hraw|].
  split; [now rewrite Hw|].
  split; [intros d; apply saved_log_last|].
  split; [reflexivity|].
  split; [fold is_crisis in Hr; rewrite <- Hr; now apply chatbot_success|].
  split; [exact Hr|].
  split; [exact Hnb|].
  split; [exact Hnn|].
  intros Hcr. unfold stored_response. rewrite Hcr. split; [reflexivity|].
  intros E. apply Hnn. rewrite E.
  now exists (strip (replace end_of_text [] raw)), get_crisis_resources.
Qed.

Lemma kept_lines_resources : kept_lines get_crisis_resources <> [].
Proof. vm_compute. discriminate. Qed.

(** C2 as amended. On a crisis turn whose body completes, the text returned
    is made of the non-blank lines of the reply followed by the non-blank
    lines of the crisis-resource block, every line stripped and the lines
    joined by single newlines; the block in full, after the reply and two
    newlines, is the content of the assistant message saved in the file. *)
Theorem crisis_resources_cleaned (w w' : world) (r : str) :
  is_crisis = true ->
  body (started w) = (Ok r, w') ->
  exists old completion raw saved,
    let reply := strip (replace end_of_text [] raw) in
    create e (request_for username assistant_name lower e user_input old)
    = Ok completion
    /\ collect completion [] = Ok raw
    /\ chatbot w = (Ok r, w')
    /\ r = join [NL] (kept_lines reply ++ kept_lines get_crisis_resources)
    /\ (kept_lines reply <> [] ->
        r = clean_response reply ++ [NL] ++ clean_response get_crisis_resources)
    /\ (kept_lines reply = [] -> r = clean_response get_crisis_resources)
    /\ file w' = Some (Json.dumps saved)
    /\ (forall d,
          last saved d
          = mkMessage assistant_role
              (reply ++ [NL; NL] ++ get_crisis_resources)).
Proof.
  intros Hcr H. pose proof H as H'. apply turn_body_ok in H'.
  destruct H' as [old [completion [raw [_ [Hc [Hraw [Hr Hw]]]]]]].
  fold is_crisis in Hr. unfold stored_response in Hr. rewrite Hcr in Hr.
  rewrite clean_response_kept, kept_lines_app in Hr.
  exists old, completion, raw, (saved_log lower user_input old raw). cbv zeta.
  split; [exact Hc|]. split; [exact Hraw|].
  split; [apply chatbot_success; exact H|].
  split; [exact Hr|].
  split.
  { intros Hne. rewrite Hr, !clean_response_kept.
    apply join_app; [exact Hne | exact kept_lines_resources]. }
  split.
  { intros He. rewrite Hr, He, clean_response_kept. apply f_equal, app_nil_l. }
  split; [rewrite Hw; reflexivity|].
  intros d. rewrite saved_log_last. fold is_crisis. unfold stored_response.
  rewrite Hcr. reflexivity.
Qed.

(** The orchestrator counts one turn. *)
Lemma chatbot_turns (w w' : world) (res : result str) :
  chatbot w = (res, w') -> turns w' = S (turns w).
Proof.
  intros H. destruct (body (started w)) as [[r|err] w1] eqn:Hb.
  - rewrite (chatbot_success _ _ _ Hb) in H. injection H as _ <-.
    now rewrite (turn_body_turns _ _ _ _ _ _ _ _ Hb).
  - rewrite (chatbot_failure _ _ _ Hb) in H. injection H as _ <-.
    simpl. now rewrite (turn_body_turns _ _ _ _ _ _ _ _ Hb).
Qed.

End Orchestrator.

(** ** The command-line loop *)

Lemma str_eqb_eq (a b : str) : str_eqb a b = true <-> a = b.
Proof.
  unfold str_eqb. destruct (list_eq_dec N.eq_dec a b); split; congruence.
Qed.

Lemma existsb_str_eqb (x : str) (l : list str) :
  existsb (str_eqb x) l = true <-> In x l.
Proof.
  rewrite existsb_exists. split.
  - intros [y [Hin E]]. apply str_eqb_eq in E. now subst.
  - intros H. exists x. split; [exact H | now apply str_eqb_eq].
Qed.

Section Cli.

Variables (username assistant_name : str) (lower : str -> str).
Variables (e : env).

(** C8. For an input line, stripped of surrounding whitespace: if its
    lowercase form is one of the exit words, the iteration prints the
    farewell and terminates the loop without running a turn; if it is empty
    (the lowercase form of the empty string being empty), nothing is run and
    the loop goes on; otherwise exactly one turn of the orchestrator is run
    on it, its result is printed and the loop goes on. *)
Theorem cli_line_dispatch (line : str) (w : world) :
  let user_input := strip line in
  let prompted := add_output w [Out (prompt username)] in
  let iteration :=
    main_iteration username assistant_name lower e (Line line) w in
  (In (lower user_input) exit_words ->
   iteration
   = (Ok Terminated,
      add_output prompted [Out (farewell username assistant_name ++ [NL])])
   /\ turns (snd iteration) = turns w)
  /\ (lower [] = [] -> user_input = [] ->
      iteration = (Ok Running, prompted)
      /\ turns (snd iteration) = turns w)
  /\ (~ In (lower user_input) exit_words -> user_input <> [] ->
      exists r w',
        mental_health_chatbot username assistant_name lower e user_input
          (add_output prompted [Out ([NL] ++ assistant_name ++ lit ": ")])
        = (Ok r, w')
        /\ iteration = (Ok Running, add_output w' [Out (r ++ [NL])])
        /\ turns (snd iteration) = S (turns w)).
Proof.
  cbv zeta.
  assert (forall b, existsb (str_eqb (lower (strip line))) exit_words = b ->
          main_iteration username assistant_name lower e (Line line) w
          = if b then (Ok Terminated,
                       add_output (add_output w [Out (prompt username)])
                         [Out (farewell username assistant_name ++ [NL])])
            else if negb (truthy (strip line))
                 then (Ok Running, add_output w [Out (prompt username)])
                 else match mental_health_chatbot username assistant_name lower
                              e (strip line)
                              (add_output (add_output w [Out (prompt username)])
                                 [Out ([NL] ++ assistant_name ++ lit ": ")]) with
                      | (Ok r, w') => (Ok Running, add_output w' [Out (r ++ [NL])])
                      | (Raise err, w') =>
                        (Ok Running,
                         add_output w'
                           [OutError (lit "
Sorry, I encountered an error: ") err; Out (lit "Let's try again..." ++ [NL])])
                      end) as Hrun.
  { intros b Hb. unfold main_iteration, try_except, bind, print_noend, print,
      emit, ret. cbv beta iota zeta. rewrite Hb.
    destruct b; [reflexivity|].
    destruct (truthy (strip line)); [|reflexivity].
    cbv beta iota delta [negb].
    unfold add_output. cbn [file stdout requests turns].
    destruct (mental_health_chatbot _ _ _ _ _ _) as [[r|err] w'];
      [reflexivity|].
    unfold is_Exception. cbn [file stdout requests turns].
    now rewrite <- app_assoc. }
  pose proof (Hrun _ eq_refl) as Hr. clear Hrun.
  split; [|split].
  - intros Hin. apply existsb_str_eqb in Hin. rewrite Hin in Hr. rewrite Hr.
    split; reflexivity.
  - intros Hlow He. rewrite He, Hlow in Hr.
    change (existsb (str_eqb []) exit_words) with false in Hr.
    rewrite Hr. split; reflexivity.
  - intros Hnin Hne.
    destruct (existsb (str_eqb (lower (strip line))) exit_words) eqn:Hb;
      [apply existsb_str_eqb in Hb; now destruct Hnin|].
    rewrite Hr.
    destruct (strip line) as [|c u] eqn:Hu; [now destruct Hne|].
    cbv beta iota delta [negb truthy].
    destruct (chatbot_returns username assistant_name lower e (c :: u)
                (add_output (add_output w [Out (prompt username)])
                   [Out ([NL] ++ assistant_name ++ lit ": ")])) as [r [w' Hc]].
    rewrite Hc. exists r, w'. split; [reflexivity|]. split; [reflexivity|].
    apply chatbot_turns in Hc. cbn [snd add_output turns]. exact Hc.
Qed.

End Cli.

(** ** The JSON text round trip *)

Module JsonFacts.
Import Json.

Lemma hex_val_digit (d : N) : d < 16 -> hex_val (hex_digit d) = Some d.
Proof.
  intros H. unfold hex_val, hex_digit.
  destruct (N.ltb_spec d 10).
  - replace ((48 <=? 48 + d) && (48 + d <=? 57)) with true.
    + f_equal. lia.
    + symmetry. apply andb_true_iff. split; apply N.leb_le; lia.
  - replace ((48 <=? 87 + d) && (87 + d <=? 57)) with false.
    + replace ((97 <=? 87 + d) && (87 + d <=? 102)) with true.
      * f_equal. lia.
      * symmetry. apply andb_true_iff. split; apply N.leb_le; lia.
    + symmetry. apply andb_false_iff. right. apply N.leb_gt. lia.
Qed.

Lemma hex_digits_value (n : N) :
  n < 65536 ->
  ((n / 4096 mod 16 * 16 + n / 256 mod 16) * 16 + n / 16 mod 16) * 16
  + n mod 16 = n.
Proof.
  intros H.
  pose proof (N.div_mod n 16 ltac:(lia)).
  pose proof (N.div_mod (n / 16) 16 ltac:(lia)).
  pose proof (N.div_mod (n / 16 / 16) 16 ltac:(lia)).
  rewrite N.Div0.div_div in *. change (16 * 16) with 256 in *.
  rewrite N.Div0.div_div in *. change (256 * 16) with 4096 in *.
  assert (n / 4096 < 16) by (apply N.Div0.div_lt_upper_bound; lia).
  rewrite (N.mod_small (n / 4096) 16) by assumption.
  lia.
Qed.

Lemma decode_u_escape (n : N) (rest : str) :
  n < 65536 ->
  exists digits : str,
    u_escape n = 92 :: 117 :: digits
    /\ decode_uXXXX (digits ++ rest) = Some (n, rest).
Proof.
  intros H. eexists. split; [reflexivity|].
  unfold decode_uXXXX. cbn [app].
  rewrite !hex_val_digit by (apply N.mod_lt; lia).
  now rewrite hex_digits_value.
Qed.

Lemma scanstring_plain (f : nat) (c : char) (t : str) :
  c <> 34 -> c <> 92 -> 32 <= c ->
  scanstring (S f) (c :: t) = scanned c (scanstring f t).
Proof.
  intros H1 H2 H3. cbn [scanstring].
  rewrite (proj2 (N.eqb_neq c 34) H1), (proj2 (N.eqb_neq c 92) H2).
  rewrite (proj2 (N.ltb_ge c 32) H3). reflexivity.
Qed.

Lemma scanstring_backslash (f : nat) (esc u : char) (t : str) :
  esc <> 117 -> backslash esc = Some u ->
  scanstring (S f) (92 :: esc :: t) = scanned u (scanstring f t).
Proof.
  intros H1 H2. cbn [scanstring].
  change (92 =? 34) with false. change (92 =? 92) with true. cbv iota.
  rewrite (proj2 (N.eqb_neq esc 117) H1), H2. reflexivity.
Qed.

Lemma scanstring_unicode (f : nat) (u : char) (t t' : str) :
  scan_unicode t = Some (u, t') ->
  scanstring (S f) (92 :: 117 :: t) = scanned u (scanstring f t').
Proof.
  intros H. cbn [scanstring].
  change (92 =? 34) with false. change (92 =? 92) with true.
  change (117 =? 117) with true. cbv iota. rewrite H. reflexivity.
Qed.

Lemma scalar_spec (c : char) :
  scalar c = true <-> (c < 0xD800 \/ 0xDFFF < c) /\ c <= 0x10FFFF.
Proof.
  unfold scalar. rewrite andb_true_iff, orb_true_iff, !N.ltb_lt, N.leb_le.
  reflexivity.
Qed.

Lemma scan_unicode_bmp (c : N) (rest : str) :
  c < 0x10000 -> (c < 0xD800 \/ 0xDFFF < c) ->
  exists digits : str,
    u_escape c = 92 :: 117 :: digits
    /\ scan_unicode (digits ++ rest) = Some (c, rest).
Proof.
  intros H Hs. destruct (decode_u_escape c rest H) as [digits [E D]].
  exists digits. split; [exact E|]. unfold scan_unicode. rewrite D.
  replace ((0xD800 <=? c) && (c <=? 0xDBFF)) with false; [reflexivity|].
  symmetry. apply andb_false_iff.
  destruct Hs; [left; apply N.leb_gt | right; apply N.leb_gt]; lia.
Qed.

Lemma scan_unicode_pair (c : N) (rest : str) :
  0x10000 <= c -> c <= 0x10FFFF ->
  exists digits : str,
    u_escape (0xD800 + ((c - 0x10000) / 1024) mod 1024)
    ++ u_escape (0xDC00 + (c - 0x10000) mod 1024)
    = 92 :: 117 :: digits
    /\ scan_unicode (digits ++ rest) = Some (c, rest).
Proof.
  intros Hlo Hhi.
  assert (c = 0x10000 + ((c - 0x10000) / 1024 * 1024 + (c - 0x10000) mod 1024))
    as Hc by (pose proof (N.div_mod (c - 0x10000) 1024 ltac:(lia)); lia).
  assert ((c - 0x10000) / 1024 < 1024) as Hq
    by (apply N.Div0.div_lt_upper_bound; lia).
  assert ((c - 0x10000) mod 1024 < 1024) as Hr by (apply N.mod_lt; lia).
  rewrite (N.mod_small _ 1024 Hq).
  remember ((c - 0x10000) / 1024) as q eqn:Eq.
  remember ((c - 0x10000) mod 1024) as r eqn:Er.
  clear Eq Er.
  destruct (decode_u_escape (0xDC00 + r) rest ltac:(lia)) as [dlo [Elo Dlo]].
  destruct (decode_u_escape (0xD800 + q) (u_escape (0xDC00 + r) ++ rest)
              ltac:(lia)) as [dhi [Ehi Dhi]].
  exists (dhi ++ u_escape (0xDC00 + r)). split; [now rewrite Ehi|].
  unfold scan_unicode. rewrite <- app_assoc, Dhi.
  replace ((0xD800 <=? 0xD800 + q) && (0xD800 + q <=? 0xDBFF)) with true
    by (symmetry; apply andb_true_iff; split; apply N.leb_le; lia).
  rewrite Elo. cbn [app startswith skipn andb].
  change (92 =? 92) with true. change (117 =? 117) with true. cbv iota.
  cbn [andb]. rewrite Dlo.
  replace ((0xDC00 <=? 0xDC00 + r) && (0xDC00 + r <=? 0xDFFF)) with true
    by (symmetry; apply andb_true_iff; split; apply N.leb_le; lia).
  f_equal. f_equal. lia.
Qed.

Lemma scanstring_escape_char (f : nat) (c : char) (t : str) :
  scalar c = true ->
  scanstring (S f) (escape_char c ++ t) = scanned c (scanstring f t).
Proof.
  intros Hs. apply scalar_spec in Hs. destruct Hs as [Hs Hmax].
  unfold escape_char.
  destruct (N.eqb_spec c 34) as [->|H34];
    [now apply scanstring_backslash|].
  destruct (N.eqb_spec c 92) as [->|H92];
    [now apply scanstring_backslash|].
  destruct (N.eqb_spec c 10) as [->|H10];
    [now apply scanstring_backslash|].
  destruct (N.eqb_spec c 13) as [->|H13];
    [now apply scanstring_backslash|].
  destruct (N.eqb_spec c 9) as [->|H9];
    [now apply scanstring_backslash|].
  destruct (N.eqb_spec c 12) as [->|H12];
    [now apply scanstring_backslash|].
  destruct (N.eqb_spec c 8) as [->|H8];
    [now apply scanstring_backslash|].
  destruct ((32 <=? c) && (c <=? 126)) eqn:Hp.
  - apply andb_true_iff in Hp. destruct Hp as [Hp _]. apply N.leb_le in Hp.
    now apply scanstring_plain.
  - destruct (N.ltb_spec c 0x10000) as [Hb|Hb].
    + destruct (scan_unicode_bmp c t Hb Hs) as [digits [E D]].
      rewrite E. cbn [app]. now apply scanstring_unicode.
    + destruct (scan_unicode_pair c t Hb Hmax) as [digits [E D]].
      rewrite E. cbn [app]. now apply scanstring_unicode.
Qed.

Lemma scanstring_encoded (s rest : str) (fuel : nat) :
  wf_str s -> (List.length s < fuel)%nat ->
  scanstring fuel (flat_map escape_char s ++ 34 :: rest) = Some (s, rest).
Proof.
  unfold wf_str. revert fuel. induction s as [|c s IH]; intros fuel Hwf Hfuel.
  - destruct fuel; [simpl in Hfuel; lia | reflexivity].
  - simpl in Hwf. apply andb_true_iff in Hwf. destruct Hwf as [Hc Hs].
    destruct fuel as [|fuel]; [simpl in Hfuel; lia|].
    cbn [flat_map]. rewrite <- app_assoc.
    rewrite scanstring_escape_char by exact Hc.
    rewrite IH; [reflexivity | exact Hs | simpl in Hfuel; lia].
Qed.

Lemma skip_ws_app (l s : str) : all_ws l -> skip_ws (l ++ s) = skip_ws s.
Proof.
  unfold all_ws. induction l as [|c l IH]; intros H; [reflexivity|].
  simpl in H. apply andb_true_iff in H. destruct H as [Hc Hl].
  cbn [app skip_ws]. rewrite Hc. now apply IH.
Qed.

Lemma all_ws_indent (k : nat) : all_ws (newline_indent k).
Proof.
  unfold all_ws, newline_indent. cbn [forallb]. change (is_ws NL) with true.
  cbn [andb]. induction (4 * k)%nat as [|n IH]; [reflexivity|].
  cbn [repeat forallb]. change (is_ws 32) with true. exact IH.
Qed.

Lemma expect_after_ws (c : char) (l s : str) :
  all_ws l -> is_ws c = false -> expect c (l ++ [c] ++ s) = Some s.
Proof.
  intros Hl Hc. unfold expect. rewrite skip_ws_app by exact Hl.
  cbn [app skip_ws]. rewrite Hc. now rewrite N.eqb_refl.
Qed.

Lemma expect_here (c : char) (s : str) :
  is_ws c = false -> expect c ([c] ++ s) = Some s.
Proof. intros Hc. now apply (expect_after_ws c []). Qed.

Lemma parse_string_encoded (l s rest : str) (fuel : nat) :
  all_ws l -> wf_str s -> (List.length s < fuel)%nat ->
  parse_string fuel (l ++ encode_string s ++ rest) = Some (s, rest).
Proof.
  intros Hl Hwf Hfuel. unfold parse_string.
  change (encode_string s ++ rest)
    with ([34] ++ (flat_map escape_char s ++ [34]) ++ rest).
  rewrite expect_after_ws by (exact Hl || reflexivity).
  rewrite <- app_assoc. now apply scanstring_encoded.
Qed.

Lemma parse_member_encoded (l key value rest : str) (fuel : nat) :
  all_ws l -> wf_str key -> wf_str value ->
  (List.length key < fuel)%nat -> (List.length value < fuel)%nat ->
  parse_member fuel key
    (l ++ encode_string key ++ [58; 32] ++ encode_string value ++ rest)
  = Some (value, rest).
Proof.
  intros Hl Hk Hv Hfk Hfv. unfold parse_member.
  rewrite parse_string_encoded by assumption.
  destruct (list_eq_dec N.eq_dec key key) as [_|Hne]; [|now destruct Hne].
  change ([58; 32] ++ encode_string value ++ rest)
    with ([58] ++ [32] ++ encode_string value ++ rest).
  rewrite expect_here by reflexivity.
  apply parse_string_encoded; (reflexivity || assumption).
Qed.

Lemma parse_message_dumped (l rest : str) (m : message) (fuel : nat) :
  all_ws l -> wf_message m ->
  (7 < fuel)%nat ->
  (List.length (role m) < fuel)%nat -> (List.length (content m) < fuel)%nat ->
  parse_message fuel (l ++ dump_message m ++ rest) = Some (m, rest).
Proof.
  intros Hl [Hr Hc] H7 Hfr Hfc. unfold parse_message, dump_message.
  rewrite <- !app_assoc.
  rewrite expect_after_ws by (exact Hl || reflexivity).
  rewrite parse_member_encoded;
    [| apply all_ws_indent | reflexivity | exact Hr | simpl; lia | exact Hfr].
  rewrite expect_here by reflexivity.
  rewrite parse_member_encoded;
    [| apply all_ws_indent | reflexivity | exact Hc | simpl; lia | exact Hfc].
  rewrite expect_after_ws by (apply all_ws_indent || reflexivity).
  now destruct m.
Qed.

Lemma escape_char_length (c : char) : (1 <= List.length (escape_char c))%nat.
Proof.
  unfold escape_char, u_escape.
  repeat match goal with
         | |- context [if ?b then _ else _] => destruct b
         end; simpl; lia.
Qed.

Lemma escaped_length (s : str) :
  (List.length s <= List.length (flat_map escape_char s))%nat.
Proof.
  induction s as [|c s IH]; [reflexivity|].
  cbn [flat_map]. rewrite length_app. pose proof (escape_char_length c).
  simpl. lia.
Qed.

Lemma encode_string_length (s : str) :
  (List.length s + 2 <= List.length (encode_string s))%nat.
Proof.
  unfold encode_string. cbn [List.length]. rewrite length_app.
  pose proof (escaped_length s). simpl. lia.
Qed.

Lemma dump_message_length (m : message) :
  (7 < List.length (dump_message m)
   /\ List.length (role m) < List.length (dump_message m)
   /\ List.length (content m) < List.length (dump_message m))%nat.
Proof.
  unfold dump_message. rewrite !length_app.
  pose proof (encode_string_length (role m)).
  pose proof (encode_string_length (content m)).
  pose proof (encode_string_length [99; 111; 110; 116; 101; 110; 116]) as Hk.
  simpl List.length in Hk at 1. lia.
Qed.

Lemma join_dump (m : message) (ms : list message) :
  join ([44] ++ newline_indent 1) (map dump_message (m :: ms))
  = dump_message m
    ++ flat_map (fun m => [44] ++ newline_indent 1 ++ dump_message m) ms.
Proof.
  revert m. induction ms as [|m' ms IH]; intros m.
  - simpl. now rewrite app_nil_r.
  - change (join ([44] ++ newline_indent 1) (map dump_message (m :: m' :: ms)))
      with (dump_message m ++ ([44] ++ newline_indent 1)
            ++ join ([44] ++ newline_indent 1) (map dump_message (m' :: ms))).
    rewrite IH. cbn [flat_map]. now rewrite <- !app_assoc.
Qed.

Lemma parse_more_dumped (ms : list message) (rest : str) (fuel : nat) :
  wf_log ms ->
  (List.length (more_text ms rest) < fuel)%nat ->
  parse_more fuel (more_text ms rest) = Some (ms, rest).
Proof.
  unfold more_text.
  revert fuel.
  induction ms as [|m ms IH]; intros fuel Hwf Hfuel.
  - destruct fuel as [|fuel]; [lia|]. cbn [flat_map app parse_more].
    rewrite skip_ws_app by apply all_ws_indent. reflexivity.
  - inversion Hwf as [|? ? Hm Hms]; subst.
    destruct fuel as [|fuel]; [lia|].
    cbn [flat_map] in *. rewrite <- !app_assoc in *.
    set (tail := flat_map (fun m => [44] ++ newline_indent 1 ++ dump_message m) ms
                 ++ newline_indent 0 ++ [93] ++ rest) in *.
    cbn [parse_more app skip_ws]. change (is_ws 44) with false. cbv iota.
    change (44 =? 93) with false. change (44 =? 44) with true. cbv iota.
    rewrite !length_app in Hfuel. cbn [List.length] in Hfuel.
    destruct (dump_message_length m) as [H7 [Hr Hc]].
    rewrite parse_message_dumped;
      [| apply all_ws_indent | exact Hm | lia | lia | lia].
    unfold tail. rewrite IH; [reflexivity | exact Hms |].
    fold tail. lia.
Qed.

Lemma loads_dumps (ms : list message) :
  wf_log ms -> loads (dumps ms) = Ok ms.
Proof.
  intros Hwf. destruct ms as [|m ms]; [reflexivity|].
  unfold loads, dumps. rewrite join_dump.
  inversion Hwf as [|? ? Hm Hms]; subst.
  set (text := [91] ++ newline_indent 1
               ++ (dump_message m
                   ++ flat_map (fun m => [44] ++ newline_indent 1 ++ dump_message m) ms)
               ++ newline_indent 0 ++ [93]).
  set (more := more_text ms []).
  assert (text = [91] ++ newline_indent 1 ++ dump_message m ++ more) as Htext.
  { unfold text, more, more_text. now rewrite <- !app_assoc. }
  assert (List.length (dump_message m) + List.length more + 1
          < S (List.length text))%nat as Hlen.
  { rewrite Htext, !length_app. cbn [List.length]. lia. }
  rewrite Htext at 2. unfold parse_array.
  rewrite expect_here by reflexivity.
  replace (expect 93 (newline_indent 1 ++ dump_message m ++ more))
    with (@None str).
  2:{ unfold expect, dump_message. rewrite skip_ws_app by apply all_ws_indent.
      reflexivity. }
  destruct (dump_message_length m) as [H7 [Hr Hc]].
  rewrite parse_message_dumped;
    [| apply all_ws_indent | exact Hm | lia | lia | lia].
  unfold more. rewrite parse_more_dumped; [reflexivity | exact Hms |].
  fold more. lia.
Qed.

End JsonFacts.

(** Two adjacent surrogate code points are written as two escapes, which are
    read back as one code point. *)
Example surrogates_merge :
  Json.loads (Json.dumps [mkMessage user_role [0xD83C; 0xDD98]])
  = Ok [mkMessage user_role [0x1F198]].
Proof. reflexivity. Qed.

(** C6. For every log of messages whose roles and contents are sequences of
    Unicode scalar values, saving the log and then loading returns the same
    log: same messages, same order, same contents. *)
Theorem save_load_roundtrip (m : list message) (w : world) :
  wf_log m ->
  load_conversation_history (snd (save_conversation_history m w))
  = (Ok m, snd (save_conversation_history m w)).
Proof.
  intros Hwf. rewrite load_conversation_history_spec.
  unfold history_of, created, save_conversation_history, write_file.
  cbn [snd file]. now rewrite JsonFacts.loads_dumps.
Qed.

(** ** The runs as instances of the theorems *)

Lemma collect_concatenates_witness :
  collect (stream_of sample_chunks) []
  = Ok (List.concat (map chunk_text sample_chunks))
  /\ List.concat (map chunk_text sample_chunks)
     = List.concat (filter truthy (map chunk_text sample_chunks)).
Proof.
  apply (collect_concatenates sample_chunks).
  repeat constructor; discriminate.
Defined.

Lemma save_load_roundtrip_witness :
  load_conversation_history
    (snd (save_conversation_history sample_log empty_world))
  = (Ok sample_log, snd (save_conversation_history sample_log empty_world)).
Proof.
  apply (save_load_roundtrip sample_log empty_world).
  repeat constructor.
Defined.

Lemma successful_turn_truncates_witness :
  crisis_run = (Ok (reply_text crisis_run), snd crisis_run)
  /\ exists old completion raw,
       let assistant_message :=
         mkMessage assistant_role
           (stored_response (check_crisis_keywords ascii_lower crisis_input)
              raw) in
       let full := old ++ [mkMessage user_role crisis_input; assistant_message] in
       let saved := lastn 20 full in
       history_of long_world = Ok old
       /\ create sample_env
            (request_for sample_username sample_assistant ascii_lower
               sample_env crisis_input old)
          = Ok completion
       /\ collect completion [] = Ok raw
       /\ file (snd crisis_run) = Some (Json.dumps saved)
       /\ (List.length saved <= 20)%nat
       /\ full = firstn (List.length full - 20) full ++ saved
       /\ (forall d, last saved d = assistant_message).
Proof.
  apply (successful_turn_truncates sample_username sample_assistant ascii_lower
           sample_env crisis_input long_world (snd crisis_run)
           (reply_text crisis_run)).
  vm_compute. reflexivity.
Defined.


Lemma returned_text_is_cleaned_stored_witness :
  exists saved stored old completion raw,
    create sample_env
      (request_for sample_username sample_assistant ascii_lower sample_env
         crisis_input old)
    = Ok completion
    /\ collect completion [] = Ok raw
    /\ file (snd crisis_run) = Some (Json.dumps saved)
    /\ (forall d, last saved d = mkMessage assistant_role stored)
    /\ stored
       = stored_response (check_crisis_keywords ascii_lower crisis_input) raw
    /\ crisis_run = (Ok (clean_response stored), snd crisis_run)
    /\ reply_text crisis_run = clean_response stored
    /\ no_blank_line (reply_text crisis_run)
    /\ ~ substring [NL; NL] (reply_text crisis_run)
    /\ (check_crisis_keywords ascii_lower crisis_input = true ->
        stored = strip (replace end_of_text [] raw)
                 ++ [NL; NL] ++ get_crisis_resources
        /\ reply_text crisis_run <> stored).
Proof.
  apply (returned_text_is_cleaned_stored sample_username sample_assistant
           ascii_lower sample_env crisis_input long_world (snd crisis_run)
           (reply_text crisis_run)).
  vm_compute. reflexivity.
Defined.

Lemma crisis_resources_cleaned_witness :
  exists old completion raw saved,
    let reply := strip (replace end_of_text [] raw) in
    create sample_env
      (request_for sample_username sample_assistant ascii_lower sample_env
         crisis_input old)
    = Ok completion
    /\ collect completion [] = Ok raw
    /\ crisis_run = (Ok (reply_text crisis_run), snd crisis_run)
    /\ reply_text crisis_run
       = join [NL] (kept_lines reply ++ kept_lines get_crisis_resources)
    /\ (kept_lines reply <> [] ->
        reply_text crisis_run
        = clean_response reply ++ [NL] ++ clean_response get_crisis_resources)
    /\ (kept_lines reply = [] ->
        reply_text crisis_run = clean_response get_crisis_resources)
    /\ file (snd crisis_run) = Some (Json.dumps saved)
    /\ (forall d,
          last saved d
          = mkMessage assistant_role
              (reply ++ [NL; NL] ++ get_crisis_resources)).
Proof.
  apply (crisis_resources_cleaned sample_username sample_assistant ascii_lower
           sample_env crisis_input long_world (snd crisis_run)
           (reply_text crisis_run)).
  - vm_compute. reflexivity.
  - vm_compute. reflexivity.
Defined.

(** C2 as stated fails: on this crisis turn, which completes, the text
    returned does not contain the crisis-resource block, and holds no blank
    line at all. *)
Lemma crisis_block_not_returned :
  ~ (forall username assistant_name lower e user_input w w' r,
       check_crisis_keywords lower user_input = true ->
       turn_body username assistant_name e true user_input (started w)
       = (Ok r, w') ->
       mental_health_chatbot username assistant_name lower e user_input w
       = (Ok r, w') ->
       substring get_crisis_resources r).
Proof.
  intros H.
  assert (substring get_crisis_resources (reply_text crisis_run)) as Hs.
  { apply (H sample_username sample_assistant ascii_lower sample_env
             crisis_input long_world (snd crisis_run));
      vm_compute; reflexivity. }
  apply contains_spec in Hs. vm_compute in Hs. discriminate.
Qed.

Lemma load_absent_and_after_reset_witness :
  exists w',
    load_conversation_history empty_world = (Ok [], w')
    /\ file w' = Some (Json.dumps [])
    /\ history_of w' = Ok []
    /\ stdout w' = stdout empty_world.
Proof.
  apply (proj1 (load_absent_and_after_reset empty_world)). reflexivity.
Defined.

Lemma cli_line_dispatch_witness :
  (main_iteration sample_username sample_assistant ascii_lower sample_env
     (Line (lit "  Quit  ")) long_world
   = (Ok Terminated,
      add_output (add_output long_world [Out (prompt sample_username)])
        [Out (farewell sample_username sample_assistant ++ [NL])])
   /\ turns (snd (main_iteration sample_username sample_assistant ascii_lower
                    sample_env (Line (lit "  Quit  ")) long_world))
      = turns long_world)
  /\ (main_iteration sample_username sample_assistant ascii_lower sample_env
        (Line (lit "   ")) long_world
      = (Ok Running, add_output long_world [Out (prompt sample_username)])
      /\ turns (snd (main_iteration sample_username sample_assistant
                       ascii_lower sample_env (Line (lit "   ")) long_world))
         = turns long_world)
  /\ (exists r w',
        mental_health_chatbot sample_username sample_assistant ascii_lower
          sample_env (strip (lit " I had a great day "))
          (add_output (add_output long_world [Out (prompt sample_username)])
             [Out ([NL] ++ sample_assistant ++ lit ": ")])
        = (Ok r, w')
        /\ main_iteration sample_username sample_assistant ascii_lower
             sample_env (Line (lit " I had a great day ")) long_world
           = (Ok Running, add_output w' [Out (r ++ [NL])])
        /\ turns (snd (main_iteration sample_username sample_assistant
                         ascii_lower sample_env
                         (Line (lit " I had a great day ")) long_world))
           = S (turns long_world)).
Proof.
  split; [|split].
  - apply (proj1 (cli_line_dispatch sample_username sample_assistant
                    ascii_lower sample_env (lit "  Quit  ") long_world)).
    vm_compute. now left.
  - apply (proj1 (proj2 (cli_line_dispatch sample_username sample_assistant
                           ascii_lower sample_env (lit "   ") long_world))).
    + reflexivity.
    + reflexivity.
  - apply (proj2 (proj2 (cli_line_dispatch sample_username sample_assistant
                           ascii_lower sample_env (lit " I had a great day ")
                           long_world))).
    + vm_compute. intuition discriminate.
    + vm_compute. discriminate.
Defined.

(** ** Further properties: lines and cleaning *)

Lemma join_split (sep : N) (s : list N) : join [sep] (split sep s) = s.
Proof.
  induction s as [|c s IH]; [reflexivity|]. cbn [split].
  pose proof (split_nonempty sep s) as Hne.
  destruct (split sep s) as [|l ls]; [now destruct Hne|].
  destruct (N.eqb_spec c sep) as [->|_].
  - change (join [sep] ([] :: l :: ls)) with ([sep] ++ join [sep] (l :: ls)).
    now rewrite IH.
  - destruct ls as [|l' ls'].
    + cbn [join] in *. now rewrite IH.
    + change (join [sep] ((c :: l) :: l' :: ls'))
        with (c :: join [sep] (l :: l' :: ls')).
      now rewrite IH.
Qed.

Lemma in_join (sep c : N) (ls : list (list N)) :
  In c (join [sep] ls) ->
  (c = sep /\ (2 <= List.length ls)%nat) \/ exists l, In l ls /\ In c l.
Proof.
  induction ls as [|l ls IH]; [intros []|].
  destruct ls as [|l' ls'].
  - intros H. right. exists l. split; [now left | exact H].
  - change (join [sep] (l :: l' :: ls'))
      with (l ++ [sep] ++ join [sep] (l' :: ls')).
    rewrite !in_app_iff. intros [H | [[<- | []] | H]].
    + right. exists l. split; [now left | exact H].
    + left. split; [reflexivity | simpl; lia].
    + destruct (IH H) as [[-> Hlen] | [k [Hk Hc]]].
      * left. split; [reflexivity | simpl; lia].
      * right. exists k. split; [now right | exact Hc].
Qed.

Lemma split_incl (sep c : N) (s l : list N) :
  In l (split sep s) -> In c l -> In c s.
Proof.
  revert l. induction s as [|d s IH]; intros l.
  - intros [<- | []] [].
  - cbn [split]. pose proof (split_nonempty sep s) as Hne.
    destruct (split sep s) as [|k ks]; [now destruct Hne|].
    destruct (d =? sep).
    + intros [<- | H] Hc; [destruct Hc|]. right. now apply (IH l).
    + intros [<- | H] Hc.
      * destruct Hc as [<- | Hc]; [now left|]. right. apply (IH k); [now left | exact Hc].
      * right. apply (IH l); [now right | exact Hc].
Qed.

Lemma split_two_sep (sep : N) (s : list N) :
  (2 <= List.length (split sep s))%nat -> In sep s.
Proof.
  induction s as [|d s IH]; [simpl; lia|].
  cbn [split]. pose proof (split_nonempty sep s) as Hne.
  destruct (split sep s) as [|k ks]; [now destruct Hne|].
  destruct (N.eqb_spec d sep) as [->|_]; [intros _; now left|].
  intros H. right. apply IH. exact H.
Qed.

Lemma lstrip_length (s : list N) :
  (List.length (lstrip s) <= List.length s)%nat.
Proof.
  induction s as [|c s IH]; [reflexivity|]. cbn [lstrip].
  destruct (isspace c); simpl; lia.
Qed.

Lemma strip_length (s : list N) :
  (List.length (strip s) <= List.length s)%nat.
Proof.
  unfold strip, rstrip. rewrite length_rev.
  pose proof (lstrip_length (rev (lstrip s))) as H.
  rewrite length_rev in H. pose proof (lstrip_length s). lia.
Qed.

Lemma join_cons_length (sep l : list N) (ls : list (list N)) :
  List.length (join sep (l :: ls))
  = (List.length l
     + match ls with
       | [] => 0
       | _ :: _ => List.length sep + List.length (join sep ls)
       end)%nat.
Proof.
  destruct ls as [|l' ls']; cbn [join]; [lia|].
  now rewrite !length_app.
Qed.

Lemma kept_join_length (ls : list (list N)) :
  (List.length
     (join [NL] (map strip (filter (fun line => truthy (strip line)) ls)))
   <= List.length (join [NL] ls))%nat.
Proof.
  induction ls as [|l ls IH]; [reflexivity|].
  rewrite (join_cons_length [NL] l ls). cbn [filter].
  destruct (truthy (strip l)).
  - cbn [map]. rewrite join_cons_length. pose proof (strip_length l) as Hl.
    destruct (map strip (filter (fun line => truthy (strip line)) ls)) as [|k ks] eqn:E.
    + destruct ls; lia.
    + destruct ls as [|l' ls']; [discriminate|]. lia.
  - destruct ls as [|l' ls']; [simpl; lia|]. lia.
Qed.

Lemma kept_lines_fixed (ls : list (list N)) :
  Forall (fun line => truthy line = true /\ strip line = line /\ ~ In NL line) ls ->
  map strip (filter (fun line => truthy (strip line)) ls) = ls.
Proof.
  induction 1 as [|l ls [Ht [Hs _]] _ IH]; [reflexivity|].
  cbn [filter]. rewrite Hs, Ht. cbn [map]. now rewrite Hs, IH.
Qed.

(** X1. Cleaning a response twice gives what cleaning it once gives. *)
Theorem clean_response_idempotent (s : list N) :
  clean_response (clean_response s) = clean_response s.
Proof.
  rewrite (clean_response_kept s). pose proof (kept_lines_stripped s) as H.
  destruct (kept_lines s) as [|l ls] eqn:E; [reflexivity|].
  rewrite clean_response_kept. unfold kept_lines at 1.
  rewrite split_join.
  - now rewrite kept_lines_fixed.
  - discriminate.
  - eapply Forall_impl; [|exact H]. simpl. tauto.
Qed.

(** X2. Cleaning only removes: the cleaned response is never longer than the
    response, and each of its characters occurs in the response. *)
Theorem clean_response_only_removes (s : list N) :
  (List.length (clean_response s) <= List.length s)%nat
  /\ forall c, In c (clean_response s) -> In c s.
Proof.
  split.
  - unfold clean_response. cbv zeta.
    pose proof (kept_join_length (split NL s)) as H.
    now rewrite join_split in H.
  - intros c Hc. rewrite clean_response_kept in Hc. unfold kept_lines in Hc.
    apply in_join in Hc. destruct Hc as [[-> Hlen] | [l [Hl Hc]]].
    + apply split_two_sep. rewrite length_map in Hlen.
      pose proof (filter_length_le (fun line => truthy (strip line)) (split NL s)).
      lia.
    + apply in_map_iff in Hl. destruct Hl as [k [<- Hk]].
      apply filter_In in Hk. destruct Hk as [Hk _].
      apply (split_incl NL c s k Hk). now apply strip_incl.
Qed.

(** X3. A crisis detected in a text is detected in every text whose
    lowercase form contains the lowercase form of the first: the keywords
    are looked for anywhere, without word boundaries. *)
Theorem crisis_detected_in_context (lower : str -> str) (text text' : str) :
  substring (lower text) (lower text') ->
  check_crisis_keywords lower text = true ->
  check_crisis_keywords lower text' = true.
Proof.
  intros [pre [post Hsub]] H. apply crisis_detected in H.
  destruct H as [k [Hin [a [b Hk]]]]. apply crisis_detected.
  exists k. split; [exact Hin|]. exists (pre ++ a), (b ++ post).
  rewrite Hsub, Hk. now rewrite <- !app_assoc.
Qed.

Lemma crisis_detected_in_context_witness :
  check_crisis_keywords ascii_lower (lit "I feel HOPELESS today") = true.
Proof.
  apply (crisis_detected_in_context ascii_lower (lit "Hopeless")).
  - exists (lit "i feel "), (lit " today"). reflexivity.
  - reflexivity.
Defined.


Section MoreOrchestrator.

Variables (username assistant_name : str) (lower : str -> str).
Variables (e : env) (user_input : str).

Let is_crisis := check_crisis_keywords lower user_input.
Let body := turn_body username assistant_name e is_crisis user_input.
Let chatbot := mental_health_chatbot username assistant_name lower e user_input.
Let user_message := mkMessage user_role user_input.
Let request := request_for username assistant_name lower e user_input.


(** X5. When the file can be loaded and the service delivers to its end a
    stream of chunks that carry a first choice, the turn completes: the text
    returned is the cleaned stored response built from the concatenated
    fragments, the file holds the saved log, one request has been sent and
    nothing has been printed. *)
Theorem turn_completes_on_delivery (w : world) (old : list message)
    (cs : list chunk) :
  history_of w = Ok old ->
  create e (request old) = Ok (stream_of cs) ->
  Forall (fun c => choices c <> []) cs ->
  let raw := List.concat (map chunk_text cs) in
  chatbot w
  = (Ok (clean_response (stored_response is_crisis raw)),
     mkWorld (Some (Json.dumps (saved_log lower user_input old raw)))
       (stdout w) (requests w ++ [request old]) (S (turns w))).
Proof. intros Hold Hc Hcs. now apply turn_completes. Qed.

(** X7. When the call of the service raises, the request has been sent, the
    user message and the earlier history are not kept: the file is reset to
    the empty log and the apology is returned. *)
Theorem service_error_resets (w : world) (old : list message) (err : exn) :
  history_of w = Ok old ->
  create e (request old) = Raise err ->
  chatbot w
  = (Ok fallback_apology,
     mkWorld (Some (Json.dumps []))
       (stdout w ++ [OutError (lit "Error occurred: ") err])
       (requests w ++ [request old]) (S (turns w))).
Proof.
  intros Hold Hc.
  assert (body (started w)
          = (Raise err,
             mkWorld (file (created (started w))) (stdout w)
               (requests w ++ [request old]) (S (turns w)))) as Hb.
  { unfold body, is_crisis. rewrite turn_body_run.
    change (history_of (started w)) with (history_of w). rewrite Hold.
    cbv zeta. fold request. now rewrite Hc. }
  unfold chatbot. now rewrite (chatbot_failure _ _ _ _ _ _ _ _ Hb).
Qed.

End MoreOrchestrator.

Lemma collect_stream_then (cs : list chunk) (rest : stream) (acc : str) :
  Forall (fun c => choices c <> []) cs ->
  collect (stream_then cs rest) acc
  = collect rest (acc ++ List.concat (map chunk_text cs)).
Proof.
  intros H. revert acc. induction H as [|c cs Hc _ IH]; intros acc.
  - cbn. now rewrite app_nil_r.
  - change (stream_then (c :: cs) rest) with (SChunk c (stream_then cs rest)).
    change (List.concat (map chunk_text (c :: cs)))
      with (chunk_text c ++ List.concat (map chunk_text cs)).
    cbn [collect]. unfold chunk_text at 1.
    destruct (choices c) as [|c0 others]; [now destruct Hc|].
    destruct (delta_content c0) as [[|x text]|]; cbn [truthy]; rewrite IH.
    + reflexivity.
    + now rewrite <- app_assoc.
    + reflexivity.
Qed.

(** X8. The collecting loop gives no partial text: after chunks that carry a
    first choice, an exception raised by the stream is raised by the loop,
    and a chunk without any choice makes it raise IndexError, whatever has
    been collected and whatever follows. *)
Theorem collect_gives_no_partial_text (cs : list chunk) (acc : str) :
  Forall (fun c => choices c <> []) cs ->
  (forall err, collect (stream_then cs (SFail err)) acc = Raise err)
  /\ (forall c rest,
        choices c = [] ->
        collect (stream_then cs (SChunk c rest)) acc = Raise IndexError).
Proof.
  intros H. split.
  - intros err. now rewrite collect_stream_then.
  - intros c rest Hc. rewrite collect_stream_then by exact H.
    cbn [collect]. now rewrite Hc.
Qed.

Lemma collect_gives_no_partial_text_witness :
  (forall err, collect (stream_then sample_chunks (SFail err)) [] = Raise err)
  /\ (forall c rest,
        choices c = [] ->
        collect (stream_then sample_chunks (SChunk c rest)) []
        = Raise IndexError).
Proof.
  apply (collect_gives_no_partial_text sample_chunks []).
  repeat constructor; discriminate.
Defined.

Lemma lastn_app_short {A} (n : nat) (l t : list A) :
  (List.length t <= n)%nat -> exists p, lastn n (l ++ t) = p ++ t.
Proof.
  intros H. unfold lastn. rewrite length_app, skipn_app.
  replace (List.length l + List.length t - n - List.length l)%nat with 0%nat
    by lia.
  now exists (skipn (List.length l + List.length t - n) l).
Qed.

Lemma lastn_length_min {A} (n : nat) (l : list A) :
  List.length (lastn n l) = Nat.min n (List.length l).
Proof. unfold lastn. rewrite length_skipn. lia. Qed.

Section MoreTurn.

Variables (username assistant_name : str) (lower : str -> str).
Variables (e : env) (user_input : str).

Let is_crisis := check_crisis_keywords lower user_input.
Let body := turn_body username assistant_name e is_crisis user_input.
Let chatbot := mental_health_chatbot username assistant_name lower e user_input.
Let user_message := mkMessage user_role user_input.
Let request := request_for username assistant_name lower e user_input.

(** X10. The log saved by a completed turn ends with the user message, the
    input as received, followed by the assistant message; it has
    min(20, n + 2) entries when the log loaded had n, and when n is at most
    18 nothing is dropped. *)
Theorem saved_log_tail (w w' : world) (r : str) :
  body (started w) = (Ok r, w') ->
  exists old raw saved,
    let assistant_message :=
      mkMessage assistant_role (stored_response is_crisis raw) in
    history_of w = Ok old
    /\ file w' = Some (Json.dumps saved)
    /\ (exists kept, saved = kept ++ [user_message; assistant_message])
    /\ List.length saved = Nat.min 20 (List.length old + 2)
    /\ ((List.length old <= 18)%nat ->
        saved = old ++ [user_message; assistant_message]).
Proof.
  intros H. apply turn_body_ok in H.
  destruct H as [old [completion [raw [Hold [_ [_ [_ ->]]]]]]].
  exists old, raw, (saved_log lower user_input old raw). cbv zeta.
  split; [exact Hold|]. split; [reflexivity|]. unfold saved_log.
  split; [apply lastn_app_short; simpl; lia|].
  split.
  - rewrite lastn_length_min, length_app. reflexivity.
  - intros Hlen. apply lastn_all. rewrite length_app. simpl. lia.
Qed.

(** X11. Every request sent ends with the user message of the turn, and when
    the log loaded has fewer than 10 entries the request holds all of them,
    in order, between the system messages and the user message. *)
Theorem request_ends_with_user_message (w w' : world) (res : result str) :
  chatbot w = (res, w') ->
  requests w' = requests w
  \/ exists old,
       history_of w = Ok old
       /\ requests w' = requests w ++ [request old]
       /\ (forall d, last (request old) d = user_message)
       /\ ((List.length old < 10)%nat ->
           request old
           = system_messages username assistant_name e is_crisis
             ++ old ++ [user_message]).
Proof.
  intros H.
  assert (exists w1 res1, body (started w) = (res1, w1)
                          /\ requests w' = requests w1) as [w1 [res1 [Hb Hq]]].
  { destruct (body (started w)) as [[r|err] w1] eqn:Hb.
    - unfold chatbot in H. rewrite (chatbot_success _ _ _ _ _ _ _ _ Hb) in H.
      injection H as _ <-. now exists w1, (Ok r).
    - unfold chatbot in H. rewrite (chatbot_failure _ _ _ _ _ _ _ _ Hb) in H.
      injection H as _ <-. now exists w1, (Raise err). }
  apply turn_body_requests in Hb. rewrite Hq.
  destruct Hb as [[err [_ Hr]] | [old [Hold Hr]]]; [now left|].
  right. exists old. split; [exact Hold|]. split; [exact Hr|].
  unfold request, request_for. split.
  - intros d. destruct (lastn_app_short 10 old [user_message]) as [p Hp];
      [simpl; lia|].
    fold user_message. rewrite Hp, app_assoc. apply last_last.
  - intros Hlen. f_equal. apply lastn_all. rewrite length_app. simpl. lia.
Qed.

End MoreTurn.

Section MoreCli.

Variables (username assistant_name : str) (lower : str -> str).

Let iteration := main_iteration username assistant_name lower.
Let loop := main_loop username assistant_name lower.

Lemma main_iteration_outcome (e : env) (ev : event) (w : world) :
  exists w',
    iteration e ev w
    = (Ok (if terminates lower ev then Terminated else Running), w')
    /\ turns w' = (turns w + if runs_turn lower ev then 1 else 0)%nat
    /\ (runs_turn lower ev = false ->
        file w' = file w /\ requests w' = requests w).
Proof.
  unfold iteration. destruct ev as [s| |].
  - unfold main_iteration, try_except, bind, print_noend, print, emit, ret.
    cbv beta iota zeta. cbn [terminates runs_turn].
    destruct (existsb (str_eqb (lower (strip s))) exit_words).
    + eexists. split; [reflexivity|]. cbn. split; [lia | tauto].
    + destruct (truthy (strip s)) eqn:Ht; cbn [negb andb].
      * match goal with
        | |- context [mental_health_chatbot ?u ?a ?l ?e ?i ?w0] =>
          destruct (chatbot_returns u a l e i w0) as [r [w1 Hc]];
          pose proof (chatbot_turns u a l e i w0 w1 (Ok r) Hc) as Hturns;
          rewrite Hc
        end.
        eexists. split; [reflexivity|]. cbn in *.
        split; [lia | discriminate].
      * eexists. split; [reflexivity|]. cbn. split; [lia | tauto].
  - eexists. split; [reflexivity|]. cbn. split; [lia | tauto].
  - eexists. split; [reflexivity|]. cbn. split; [lia | tauto].
Qed.

Lemma main_loop_cons (e : env) (ev : event) (rest : list (env * event))
    (w : world) :
  loop ((e, ev) :: rest) w
  = if terminates lower ev then iteration e ev w
    else loop rest (snd (iteration e ev w)).
Proof.
  unfold loop, iteration. cbn [main_loop]. unfold bind.
  destruct (main_iteration_outcome e ev w) as [w' [H _]].
  unfold iteration in H. rewrite H.
  destruct (terminates lower ev); reflexivity.
Qed.

(** X12. What follows the first exit word or interrupt is not read: the loop
    does on the whole input what it does on the input up to that event. *)
Theorem main_loop_stops_at_exit (inputs : list (env * event)) (w : world) :
  loop inputs w = loop (until_exit lower inputs) w.
Proof.
  revert w. induction inputs as [|[e ev] rest IH]; intros w; [reflexivity|].
  cbn [until_exit]. destruct (terminates lower ev) eqn:Ht.
  - rewrite !main_loop_cons, Ht. reflexivity.
  - rewrite !main_loop_cons, Ht. apply IH.
Qed.

Lemma main_loop_outcome (inputs : list (env * event)) (w : world) :
  exists w',
    loop inputs w
    = (Ok (if existsb (fun x => terminates lower (snd x)) inputs
           then Terminated else Running), w')
    /\ turns w'
       = (turns w
          + List.length
              (filter (fun x => runs_turn lower (snd x))
                 (until_exit lower inputs)))%nat
    /\ (forallb (fun x => negb (runs_turn lower (snd x)))
          (until_exit lower inputs) = true ->
        file w' = file w /\ requests w' = requests w).
Proof.
  revert w. induction inputs as [|[e ev] rest IH]; intros w.
  - exists w. cbn. split; [reflexivity|]. split; [lia | tauto].
  - rewrite main_loop_cons. cbn [existsb until_exit snd].
    destruct (main_iteration_outcome e ev w) as [w1 [H1 [Ht1 Hf1]]].
    rewrite H1. cbn [snd]. destruct (terminates lower ev).
    + exists w1. split; [reflexivity|]. cbn [filter snd forallb orb].
      destruct (runs_turn lower ev); cbn [List.length negb andb].
      * split; [lia | discriminate].
      * split; [lia|]. intros _. now apply Hf1.
    + destruct (IH w1) as [w' [H [Ht Hf]]]. exists w'. cbn [orb].
      split; [exact H|]. cbn [filter snd forallb].
      destruct (runs_turn lower ev); cbn [List.length negb andb].
      * split; [lia | discriminate].
      * split; [lia|]. intros Hall. destruct (Hf Hall) as [Hfile Hreq].
        destruct (Hf1 eq_refl) as [Hfile1 Hreq1]. split; congruence.
Qed.

(** X13. The program ends its loop exactly when an input line is an exit
    word or the user interrupts; an input that is closed does not end it.
    The orchestrator is called once for each line, up to that event, that is
    neither an exit word nor empty once stripped. *)
Theorem main_status_and_turns (inputs : list (env * event)) (w : world) :
  exists w',
    main username assistant_name lower inputs w
    = (Ok (if existsb (fun x => terminates lower (snd x)) inputs
           then Terminated else Running), w')
    /\ turns w'
       = (turns w
          + List.length
              (filter (fun x => runs_turn lower (snd x))
                 (until_exit lower inputs)))%nat.
Proof.
  unfold main, show_welcome_message, bind, print, emit. cbv beta iota.
  match goal with
  | |- context [main_loop _ _ _ inputs ?w0] =>
    destruct (main_loop_outcome inputs w0) as [w' [H [Ht _]]]
  end.
  exists w'. split; [exact H | exact Ht].
Qed.

(** X14. A session in which no turn is run (blank lines, closed input, then
    perhaps an exit word or an interrupt) leaves the file as it was, missing
    if it was missing, and sends no request. *)
Theorem session_without_turn_keeps_file (inputs : list (env * event))
    (w : world) :
  forallb (fun x => negb (runs_turn lower (snd x))) (until_exit lower inputs)
  = true ->
  file (snd (main username assistant_name lower inputs w)) = file w
  /\ requests (snd (main username assistant_name lower inputs w)) = requests w.
Proof.
  intros Hall.
  unfold main, show_welcome_message, bind, print, emit. cbv beta iota.
  match goal with
  | |- context [main_loop _ _ _ inputs ?w0] =>
    destruct (main_loop_outcome inputs w0) as [w' [H [_ Hf]]]
  end.
  unfold loop in H. rewrite H. cbn [snd]. now apply Hf.
Qed.

End MoreCli.

Lemma wf_str_forall (s : str) :
  wf_str s <-> forall c, In c s -> scalar c = true.
Proof. unfold wf_str. apply forallb_forall. Qed.

Lemma wf_str_app (a b : str) : wf_str a -> wf_str b -> wf_str (a ++ b).
Proof.
  unfold wf_str. intros Ha Hb. now rewrite forallb_app, Ha, Hb.
Qed.

Lemma wf_str_strip (s : str) : wf_str s -> wf_str (strip s).
Proof.
  rewrite !wf_str_forall. intros H c Hc. now apply H, strip_incl.
Qed.

Lemma replace_from_incl (old : str) (skip : nat) (s : str) (c : N) :
  In c (replace_from old [] skip s) -> In c s.
Proof.
  revert skip. induction s as [|d s IH]; intros skip; [intros []|].
  cbn [replace_from]. destruct skip as [|k].
  - destruct (startswith old (d :: s)).
    + cbn [app]. intros H. right. now apply IH in H.
    + intros [<- | H]; [now left|]. right. now apply IH in H.
  - intros H. right. now apply IH in H.
Qed.

Lemma wf_str_without_marker (s : str) :
  wf_str s -> wf_str (replace end_of_text [] s).
Proof.
  rewrite !wf_str_forall. intros H c Hc. apply H.
  now apply (replace_from_incl end_of_text 0).
Qed.

Lemma wf_str_concat (ls : list str) :
  Forall (fun l => wf_str l) ls -> wf_str (List.concat ls).
Proof.
  induction 1 as [|l ls Hl _ IH]; [reflexivity|].
  cbn [List.concat]. now apply wf_str_app.
Qed.

Lemma wf_stored_response (is_crisis : bool) (raw : str) :
  wf_str raw -> wf_str (stored_response is_crisis raw).
Proof.
  intros H. unfold stored_response. cbv zeta.
  assert (wf_str (strip (replace end_of_text [] raw))) as Hr
    by now apply wf_str_strip, wf_str_without_marker.
  destruct is_crisis; [|exact Hr].
  apply wf_str_app; [exact Hr|]. apply wf_str_app; reflexivity.
Qed.

Lemma wf_log_lastn (n : nat) (ms : list message) :
  wf_log ms -> wf_log (lastn n ms).
Proof.
  unfold wf_log, lastn. intros H.
  rewrite <- (firstn_skipn (List.length ms - n) ms) in H.
  now apply Forall_app in H.
Qed.

Section Memory.

Variables (username assistant_name : str) (lower : str -> str).
Variables (e : env) (user_input : str).

Let is_crisis := check_crisis_keywords lower user_input.
Let chatbot := mental_health_chatbot username assistant_name lower e user_input.
Let request := request_for username assistant_name lower e user_input.

(** X15. The conversation is remembered from one turn to the next: when the
    log loaded, the input and the fragments received are made of Unicode
    scalar values, the log that the next load returns after a completed turn
    is the log saved by the turn, which is again made of scalar values. *)
Theorem completed_turn_is_remembered (w : world) (old : list message)
    (cs : list chunk) :
  history_of w = Ok old ->
  create e (request old) = Ok (stream_of cs) ->
  Forall (fun c => choices c <> []) cs ->
  wf_log old -> wf_str user_input ->
  Forall (fun c => wf_str (chunk_text c)) cs ->
  let saved :=
    saved_log lower user_input old (List.concat (map chunk_text cs)) in
  load_conversation_history (snd (chatbot w)) = (Ok saved, snd (chatbot w))
  /\ wf_log saved.
Proof.
  intros Hold Hc Hcs Hwo Hwi Hwc saved.
  assert (wf_log saved) as Hws.
  { unfold saved, saved_log. apply wf_log_lastn. apply Forall_app. split;
      [exact Hwo|].
    repeat constructor; cbn [role content]; try reflexivity; try exact Hwi.
    apply wf_stored_response, wf_str_concat. now apply Forall_map. }
  split; [|exact Hws].
  unfold chatbot. rewrite (turn_completes _ _ _ _ _ _ _ _ Hold Hc Hcs).
  cbn [snd]. rewrite load_conversation_history_spec.
  unfold history_of, created. cbn [file]. fold saved.
  now rewrite JsonFacts.loads_dumps.
Qed.

End Memory.

Section NextTurn.

Variables (username assistant_name : str) (lower : str -> str).
Variables (e e2 : env) (user_input user_input2 : str).

(** X16. The request of the turn that follows a completed turn is built on
    the log that this turn saved: its history window is the last 10 entries
    of the saved log followed by the new user message. *)
Theorem next_turn_sees_saved_log (w w2 : world) (old : list message)
    (cs : list chunk) (res : result str) :
  history_of w = Ok old ->
  create e (request_for username assistant_name lower e user_input old)
  = Ok (stream_of cs) ->
  Forall (fun c => choices c <> []) cs ->
  wf_log old -> wf_str user_input ->
  Forall (fun c => wf_str (chunk_text c)) cs ->
  let w1 :=
    snd (mental_health_chatbot username assistant_name lower e user_input w) in
  let saved :=
    saved_log lower user_input old (List.concat (map chunk_text cs)) in
  mental_health_chatbot username assistant_name lower e2 user_input2 w1
  = (res, w2) ->
  requests w2
  = requests w1
    ++ [system_messages username assistant_name e2
          (check_crisis_keywords lower user_input2)
        ++ lastn 10 (saved ++ [mkMessage user_role user_input2])].
Proof.
  intros Hold Hc Hcs Hwo Hwi Hwc w1 saved H2.
  assert (history_of w1 = Ok saved) as Hh.
  { unfold w1. rewrite (turn_completes _ _ _ _ _ _ _ _ Hold Hc Hcs).
    cbn [snd]. unfold history_of. cbn [file]. fold saved.
    apply JsonFacts.loads_dumps. unfold saved, saved_log.
    apply wf_log_lastn, Forall_app. split; [exact Hwo|].
    repeat constructor; cbn [role content]; try reflexivity; try exact Hwi.
    apply wf_stored_response, wf_str_concat. now apply Forall_map. }
  destruct (turn_body username assistant_name e2
              (check_crisis_keywords lower user_input2) user_input2
              (started w1)) as [[r|err] w3] eqn:Hb.
  - rewrite (chatbot_success _ _ _ _ _ _ _ _ Hb) in H2. injection H2 as _ <-.
    apply turn_body_requests in Hb.
    change (history_of (started w1)) with (history_of w1) in Hb.
    destruct Hb as [[err [Herr _]] | [old' [Hold' Hr]]]; [congruence|].
    rewrite Hh in Hold'. injection Hold' as <-. exact Hr.
  - rewrite (chatbot_failure _ _ _ _ _ _ _ _ Hb) in H2. injection H2 as _ <-.
    apply turn_body_requests in Hb.
    change (history_of (started w1)) with (history_of w1) in Hb.
    destruct Hb as [[err' [Herr _]] | [old' [Hold' Hr]]]; [congruence|].
    rewrite Hh in Hold'. injection Hold' as <-. exact Hr.
Qed.

End NextTurn.

Lemma turn_completes_on_delivery_witness :
  crisis_run
  = (Ok (clean_response
           (stored_response (check_crisis_keywords ascii_lower crisis_input)
              (List.concat (map chunk_text sample_chunks)))),
     mkWorld
       (Some (Json.dumps
                (saved_log ascii_lower crisis_input long_log
                   (List.concat (map chunk_text sample_chunks)))))
       (stdout long_world)
       (requests long_world
        ++ [request_for sample_username sample_assistant ascii_lower
              sample_env crisis_input long_log])
       (S (turns long_world))).
Proof.
  apply (turn_completes_on_delivery sample_username sample_assistant
           ascii_lower sample_env crisis_input long_world long_log
           sample_chunks).
  - vm_compute. reflexivity.
  - reflexivity.
  - repeat constructor; discriminate.
Defined.

Lemma service_error_resets_witness :
  failing_run
  = (Ok fallback_apology,
     mkWorld (Some (Json.dumps []))
       (stdout long_world
        ++ [OutError (lit "Error occurred: ") (APIError (lit "rate limit"))])
       (requests long_world
        ++ [request_for sample_username sample_assistant ascii_lower
              failing_env calm_input long_log])
       (S (turns long_world))).
Proof.
  apply (service_error_resets sample_username sample_assistant ascii_lower
           failing_env calm_input long_world long_log).
  - vm_compute. reflexivity.
  - reflexivity.
Defined.

Lemma saved_log_tail_witness :
  exists old raw saved,
    let assistant_message :=
      mkMessage assistant_role
        (stored_response (check_crisis_keywords ascii_lower crisis_input) raw)
    in
    history_of long_world = Ok old
    /\ file (snd crisis_run) = Some (Json.dumps saved)
    /\ (exists kept,
          saved
          = kept ++ [mkMessage user_role crisis_input; assistant_message])
    /\ List.length saved = Nat.min 20 (List.length old + 2)
    /\ ((List.length old <= 18)%nat ->
        saved = old ++ [mkMessage user_role crisis_input; assistant_message]).
Proof.
  apply (saved_log_tail sample_username sample_assistant ascii_lower
           sample_env crisis_input long_world (snd crisis_run)
           (reply_text crisis_run)).
  vm_compute. reflexivity.
Defined.

Lemma request_ends_with_user_message_witness :
  requests (snd crisis_run) = requests long_world
  \/ exists old,
       history_of long_world = Ok old
       /\ requests (snd crisis_run)
          = requests long_world
            ++ [request_for sample_username sample_assistant ascii_lower
                  sample_env crisis_input old]
       /\ (forall d,
             last (request_for sample_username sample_assistant ascii_lower
                     sample_env crisis_input old) d
             = mkMessage user_role crisis_input)
       /\ ((List.length old < 10)%nat ->
           request_for sample_username sample_assistant ascii_lower
             sample_env crisis_input old
           = system_messages sample_username sample_assistant sample_env
               (check_crisis_keywords ascii_lower crisis_input)
             ++ old ++ [mkMessage user_role crisis_input]).
Proof.
  apply (request_ends_with_user_message sample_username sample_assistant
           ascii_lower sample_env crisis_input long_world (snd crisis_run)
           (fst crisis_run)).
  vm_compute. reflexivity.
Defined.

Lemma session_without_turn_keeps_file_witness :
  file (snd (main sample_username sample_assistant ascii_lower idle_session
               empty_world))
  = file empty_world
  /\ requests (snd (main sample_username sample_assistant ascii_lower
                      idle_session empty_world))
     = requests empty_world.
Proof.
  apply (session_without_turn_keeps_file sample_username sample_assistant
           ascii_lower idle_session empty_world).
  vm_compute. reflexivity.
Defined.

Lemma completed_turn_is_remembered_witness :
  let saved :=
    saved_log ascii_lower crisis_input long_log
      (List.concat (map chunk_text sample_chunks)) in
  load_conversation_history (snd crisis_run) = (Ok saved, snd crisis_run)
  /\ wf_log saved.
Proof.
  apply (completed_turn_is_remembered sample_username sample_assistant
           ascii_lower sample_env crisis_input long_world long_log
           sample_chunks).
  - vm_compute. reflexivity.
  - reflexivity.
  - repeat constructor; discriminate.
  - repeat constructor.
  - reflexivity.
  - repeat constructor.
Defined.

Lemma next_turn_sees_saved_log_witness :
  requests
    (snd (mental_health_chatbot sample_username sample_assistant ascii_lower
            failing_env calm_input (snd crisis_run)))
  = requests (snd crisis_run)
    ++ [system_messages sample_username sample_assistant failing_env
          (check_crisis_keywords ascii_lower calm_input)
        ++ lastn 10
             (saved_log ascii_lower crisis_input long_log
                (List.concat (map chunk_text sample_chunks))
              ++ [mkMessage user_role calm_input])].
Proof.
  apply (next_turn_sees_saved_log sample_username sample_assistant
           ascii_lower sample_env failing_env crisis_input calm_input
           long_world
           (snd (mental_health_chatbot sample_username sample_assistant
                   ascii_lower failing_env calm_input (snd crisis_run)))
           long_log sample_chunks
           (fst (mental_health_chatbot sample_username sample_assistant
                   ascii_lower failing_env calm_input (snd crisis_run)))).
  - vm_compute. reflexivity.
  - reflexivity.
  - repeat constructor; discriminate.
  - repeat constructor.
  - reflexivity.
  - repeat constructor.
  - vm_compute. reflexivity.
Defined.

(** ** The orchestrator on a store with faults *)

Lemma no_faults_load (w : world) :
  Faulty.load_conversation_history Faulty.no_faults w
  = load_conversation_history w.
Proof. reflexivity. Qed.

Lemma no_faults_turn_body (username assistant_name : str) (e : env)
    (is_crisis : bool) (user_input : str) (w : world) :
  Faulty.turn_body username assistant_name Faulty.no_faults e is_crisis
    user_input w
  = turn_body username assistant_name e is_crisis user_input w.
Proof. reflexivity. Qed.

Lemma no_faults_chatbot (username assistant_name : str) (lower : str -> str)
    (e : env) (user_input : str) (w : world) :
  Faulty.mental_health_chatbot username assistant_name lower
    Faulty.no_faults e user_input w
  = mental_health_chatbot username assistant_name lower e user_input w.
Proof. reflexivity. Qed.

Lemma starts_no_value_raises (text : str) :
  starts_no_value text = true -> Json.loads text = Raise JSONDecodeError.
Proof.
  unfold starts_no_value, Json.loads, Json.parse_array, Json.expect.
  destruct (Json.skip_ws text) as [|c r]; [reflexivity|].
  intros H. apply negb_true_iff, orb_false_iff in H. destruct H as [H _].
  cbn [existsb] in H.
  destruct (N.eqb_spec c 91) as [->|_]; [discriminate H | reflexivity].
Qed.

Section FaultyOrchestrator.

Variables (username assistant_name : str) (lower : str -> str).
Variables (f : Faulty.faults) (e : env) (user_input : str).

Let is_crisis := check_crisis_keywords lower user_input.
Let body :=
  Faulty.turn_body username assistant_name f e is_crisis user_input.
Let chatbot :=
  Faulty.mental_health_chatbot username assistant_name lower f e user_input.



(** A fault of the save, after a load and a completion that went well,
    makes the body raise: the request has been sent and the file is as the
    load left it. *)
Lemma save_fault_raises (w : world) (text : str) (old : list message)
    (cs : list chunk) (err : exn) :
  file w = Some text -> Json.loads text = Ok old ->
  Faulty.read_fault f = None ->
  create e (request_for username assistant_name lower e user_input old)
  = Ok (stream_of cs) ->
  Forall (fun c => choices c <> []) cs ->
  Faulty.save_fault f = Some err ->
  body w
  = (Raise err,
     mkWorld (file w) (stdout w)
       (requests w
        ++ [request_for username assistant_name lower e user_input old])
       (turns w)).
Proof.
  intros Hf Hl Hr Hc Hcs Hs.
  unfold body, Faulty.turn_body, bind, Faulty.load_conversation_history,
    try_except, bind, Faulty.opening, read_file, lift.
  rewrite Hr, Hf, Hl. unfold completions_create.
  unfold request_for in Hc. fold is_crisis in Hc. rewrite Hc.
  rewrite collect_stream_of by exact Hcs.
  unfold Faulty.save_conversation_history, Faulty.opening. rewrite Hs.
  cbn [file stdout requests turns]. now rewrite Hf.
Qed.

End FaultyOrchestrator.



Section Garbled.

Variables (username assistant_name : str) (lower : str -> str).
Variables (e : env) (user_input : str).

(** X6. When the file holds a text in which no JSON value starts (an empty
    or blank file, or another kind of text), the load raises
    JSONDecodeError: the service is not called, the error is printed, the
    file is reset to the empty log and the apology is returned. *)
Theorem garbled_file_skips_service (w : world) (text : str) :
  file w = Some text -> starts_no_value text = true ->
  mental_health_chatbot username assistant_name lower e user_input w
  = (Ok fallback_apology,
     mkWorld (Some (Json.dumps []))
       (stdout w ++ [OutError (lit "Error occurred: ") JSONDecodeError])
       (requests w) (S (turns w))).
Proof.
  intros Hf Hs. apply starts_no_value_raises in Hs.
  assert (turn_body username assistant_name e
            (check_crisis_keywords lower user_input) user_input (started w)
          = (Raise JSONDecodeError, started w)) as Hb.
  { rewrite turn_body_run.
    change (history_of (started w)) with (history_of w).
    unfold history_of, created, started. cbn [file]. now rewrite Hf, Hs. }
  now rewrite (chatbot_failure _ _ _ _ _ _ _ _ Hb).
Qed.

End Garbled.

Lemma garbled_file_skips_service_witness :
  mental_health_chatbot sample_username sample_assistant ascii_lower
    sample_env calm_input garbled_world
  = (Ok fallback_apology,
     mkWorld (Some (Json.dumps []))
       (stdout garbled_world
        ++ [OutError (lit "Error occurred: ") JSONDecodeError])
       (requests garbled_world) (S (turns garbled_world))).
Proof.
  apply (garbled_file_skips_service sample_username sample_assistant
           ascii_lower sample_env calm_input garbled_world (lit "  <html>")).
  - reflexivity.
  - reflexivity.
Defined.

(** X9. Loading writes the file only when opening it for reading raises
    FileNotFoundError: a file that is opened is left as it is, whatever it
    holds, and any other exception of the opening leaves the function
    without a file being created or changed. *)
Theorem load_writes_only_missing_file (f : Faulty.faults) (w : world) :
  (forall text,
     file w = Some text -> Faulty.read_fault f = None ->
     snd (Faulty.load_conversation_history f w) = w)
  /\ (forall err,
        Faulty.read_fault f = Some err -> is_FileNotFoundError err = false ->
        Faulty.load_conversation_history f w = (Raise err, w)).
Proof.
  unfold Faulty.load_conversation_history, try_except, bind, Faulty.opening,
    read_file, lift.
  split.
  - intros text Hf ->. rewrite Hf.
    destruct (Json.loads text) as [ms|err] eqn:E; [reflexivity|].
    now rewrite (loads_raises _ _ E).
  - intros err -> Herr. now rewrite Herr.
Qed.

Lemma load_writes_only_missing_file_witness :
  snd (Faulty.load_conversation_history save_fails garbled_world)
  = garbled_world
  /\ Faulty.load_conversation_history
       (Faulty.mkFaults (Some (OSError (lit "Permission denied"))) None None
          None) empty_world
     = (Raise (OSError (lit "Permission denied")), empty_world).
Proof.
  split.
  - apply (proj1 (load_writes_only_missing_file save_fails garbled_world)
             (lit "  <html>")); reflexivity.
  - apply (proj2 (load_writes_only_missing_file
                    (Faulty.mkFaults
                       (Some (OSError (lit "Permission denied"))) None None
                       None) empty_world)); reflexivity.
Defined.
